(** * AURA dispatch core: a shallow embedding and its verified properties

    The development follows the layout of the Python sources:

    - [Json], [Python]  structured values; results of Python computations
    - [Security]        [src/core/security.py], the static auditor
    - [Sandbox]         [services/execution_sandbox/main.py], the executor
    - [Uvm]             [src/core/uvm.py], the prototype object
    - [Arango]          the object store as [db_client.py] drives it
    - [Runtime]         the state shared by client and orchestrator
    - [DbClient]        [src/persistence/db_client.py], store and resolver
    - [Orchestrator]    [src/core/orchestrator.py], the dispatch state machine
    - [Demo]            a concrete runtime (a handful of method bodies, their
                        syntax trees and their behaviour) for the examples
    - [Vocabulary], [Scenario]  the predicates and dispatches of Part II
    - [UvmDocuments]    [to_doc] and runs of assignments on the prototype object
    - [Frame]           what a dispatch leaves alone
    - [Gateway]         [src/main.py], the two HTTP endpoints
    - [Cli]             [clients/cli_client.py], the argument parser
    - [Cognitive]       [src/cognitive/metacog.py] and [cascade.py]
    - [Genesis]         [genesis.py], the root objects

    Part I holds the definitions, Part II the theorems on the dispatch
    core, Part III further properties of the code around it. *)

From stdpp Require Import gmap strings list fin_maps pretty.

Set Warnings "-register-all".
Set Default Proof Using "Type".

(* ===================================================================== *)
(** * Part I: the embedding *)
(* ===================================================================== *)

(** ** Structured values

    Attribute values, call arguments and outputs are JSON documents
    ([Dict[str, Any]], [List[Any]], [Any] in the sources).  Numbers are
    integers; floating point is not modelled. *)
Module Json.

Inductive value :=
  | VNull
  | VBool (b : bool)
  | VInt (z : Z)
  | VStr (s : string)
  | VList (l : list value)
  | VObj (m : gmap string value).

End Json.
Export Json.

(** ** Python results

    A Python computation returns a value or raises an exception; an
    exception is kept as its class name and its message. *)
Module Python.

Inductive outcome (A : Type) :=
  | Returns (a : A)
  | Raises (cls msg : string).
Arguments Returns {A} a.
Arguments Raises {A} cls msg.

#[global] Instance outcome_ret : MRet outcome := λ A a, Returns a.
#[global] Instance outcome_bind : MBind outcome := λ A B f m,
  match m with
  | Returns a => f a
  | Raises cls msg => Raises cls msg
  end.
#[global] Instance outcome_fmap : FMap outcome := λ A B f m,
  match m with
  | Returns a => Returns (f a)
  | Raises cls msg => Raises cls msg
  end.

(** The builtin exception classes outside [Exception], which an
    [except Exception] clause does not catch.  An exception of a class
    that a body derives from one of them is kept under the builtin's
    name. *)
Definition base_only : list string :=
  ["BaseException"; "SystemExit"; "KeyboardInterrupt"; "GeneratorExit";
   "BaseExceptionGroup"; "CancelledError"].

(** [isinstance(e, Exception)]. *)
Definition is_exception (cls : string) : bool := bool_decide (cls ∉ base_only).

End Python.
Export Python.

(** ** The security auditor ([PersistenceGuardian]) *)
Module Security.

(** The node classes of Python's [ast] module that the auditor tells
    apart; every other class is [Other] with its class name. *)
Inductive node_class :=
  | Import | ImportFrom | Delete | Name | Attribute
  | Other (cls : string).

#[global] Instance node_class_eq_dec : EqDecision node_class.
Proof. solve_decision. Defined.

(** A syntax-tree node: its class, the identifier it carries ([node.id]
    of a [Name], [node.attr] of an [Attribute], unused otherwise) and its
    child nodes in [ast.iter_child_nodes] order. *)
Inductive ast :=
  | Node (cls : node_class) (ident : string) (children : list ast).

Definition type (n : ast) : node_class := let 'Node c _ _ := n in c.
Definition id (n : ast) : string := let 'Node _ i _ := n in i.
Definition attr (n : ast) : string := let 'Node _ i _ := n in i.
Definition iter_child_nodes (n : ast) : list ast := let 'Node _ _ cs := n in cs.
Definition isinstance (n : ast) (c : node_class) : bool := bool_decide (type n = c).

Fixpoint size (n : ast) : nat :=
  let 'Node _ _ cs := n in S (list_sum (map size cs)).

(** [self.denylist] and [self.name_denylist] of [__init__]. *)
Definition denylist : list node_class := [Import; ImportFrom; Delete].

Definition name_denylist : gset string :=
  {[ "open"; "eval"; "exec"; "exit"; "quit";
     "__import__"; "os"; "sys"; "subprocess"; "shutil"; "socket" ]}.

(** [ast.walk]: a queue seeded with the root; each step pops the left
    end, appends the popped node's children on the right and yields the
    node.  The fuel bounds the number of pops. *)
Fixpoint walk_queue (fuel : nat) (todo : list ast) : list ast :=
  match fuel with
  | O => []
  | S fuel' =>
      match todo with
      | [] => []
      | node :: rest => node :: walk_queue fuel' (rest ++ iter_child_nodes node)
      end
  end.

Definition walk (tree : ast) : list ast := walk_queue (size tree) [tree].

(** The body of the [for node in ast.walk(tree)] loop, with its three
    early [return False] and the final [return True]. *)
Fixpoint audit_loop (nodes : list ast) : bool :=
  match nodes with
  | [] => true
  | node :: rest =>
      if bool_decide (type node ∈ denylist) then false
      else if isinstance node Name && bool_decide (id node ∈ name_denylist) then false
      else if isinstance node Attribute && bool_decide (attr node ∈ name_denylist) then false
      else audit_loop rest
  end.

(** [SyntaxError] and its subclasses: what [except SyntaxError]
    catches. *)
Definition syntax_errors : list string :=
  ["SyntaxError"; "IndentationError"; "TabError"].

Section Audit.
(** [ast.parse]: the tree of a source text, or the exception the parser
    raises: [SyntaxError] or a subclass on a malformed text,
    [ValueError] on a text with a null byte, [RecursionError] or
    [MemoryError] on a text nested too deeply. *)
Variable ast_parse : string → outcome ast.

(** [audit]: only the syntax errors are handled; any other exception of
    the parser leaves the method. *)
Definition audit (code_string : string) : outcome bool :=
  match ast_parse code_string with
  | Returns tree => Returns (audit_loop (walk tree))
  | Raises cls msg =>
      if bool_decide (cls ∈ syntax_errors) then Returns false else Raises cls msg
  end.
End Audit.

End Security.

(** ** The sandboxed executor *)
Module Sandbox.

Record ExecutionPayload := {
  code : string;
  method_name : string;
  object_state : gmap string value;
  args : list value;
  kwargs : gmap string value
}.

(** [SandboxObject]: the proxy the body runs against.  It is a plain
    class: assigning into [self.attributes] does not touch [_p_changed],
    only a statement of the body that sets the flag does. *)
Record SandboxObject := {
  attributes : gmap string value;
  _p_changed : bool
}.

(** The JSON object returned by [/execute]. *)
Record Response := {
  output : value;
  state_changed : bool;
  final_state : gmap string value;
  error : option string
}.

(** Running a body either returns or raises, and in both cases leaves
    the proxy in some state.

    A function object bound in the namespace: called with the proxy, the
    positional and the keyword arguments.  The result stands for the
    call together with the two reads [sandbox_self._p_changed] and
    [sandbox_self.attributes] that follow it inside the [try] block: a
    body that removes one of the two attributes from the proxy makes the
    read raise [AttributeError], which is a [Raises] here. *)
Definition callable : Type :=
  SandboxObject → list value → gmap string value → outcome value * SandboxObject.

(** The namespace left by [exec]: [local_namespace.get(name)] restricted
    to callables ([None]: unbound, or bound to something not callable). *)
Definition namespace : Type := string → option callable.

(** The interpreter: [exec(code, {}, {'self': sandbox_self})]. *)
Definition interpreter : Type :=
  string → SandboxObject → outcome namespace * SandboxObject.

Definition error_message (cls msg : string) : string := cls +:+ ": " +:+ msg.

Definition not_callable_message (name : string) : string :=
  "Method '" +:+ name +:+ "' not found or not callable after exec.".

(** The response of the [except Exception] branch for a request that
    came in with [payload]. *)
Definition failure (payload : ExecutionPayload) (cls msg : string) : Response :=
  {| output := VNull;
     state_changed := false;
     final_state := object_state payload;
     error := Some (error_message cls msg) |}.

(** The dictionaries the handler holds, by identity:
    [payload.object_state] is one object, what [copy.deepcopy] returns
    is another. *)
Definition ref : Type := nat.
Definition heap : Type := gmap ref (gmap string value).

(** [copy.deepcopy(obj)]: a new object with the content of [obj]. *)
Definition deepcopy (h : heap) (obj : ref) : ref * heap :=
  let copy := fresh (dom h) in (copy, <[copy := h !!! obj]> h).

(** Memory after the body has worked on the proxy: the dictionary that
    [self.attributes] names holds what the body left in it. *)
Definition settle (h : heap) (attributes_ref : ref) (sandbox_self : SandboxObject) : heap :=
  <[attributes_ref := attributes sandbox_self]> h.

(** The [except Exception] clause: an exception outside [Exception]
    passes through it and leaves the handler without a response; for any
    other the response is built, reading [payload.object_state] as it is
    then. *)
Definition except_Exception (h : heap) (payload_object_state : ref) (cls msg : string)
    : outcome Response :=
  if is_exception cls then
    Returns {| output := VNull;
               state_changed := false;
               final_state := h !!! payload_object_state;
               error := Some (error_message cls msg) |}
  else Raises cls msg.

Section Execute.
Variable exec : interpreter.

Definition execute_code (payload : ExecutionPayload) : outcome Response :=
  let payload_object_state : ref := 0 in
  let h : heap := {[ payload_object_state := object_state payload ]} in
  let '(initial_state, h) := deepcopy h payload_object_state in
  let sandbox_self := {| attributes := h !!! initial_state; _p_changed := false |} in
  match exec (code payload) sandbox_self with
  | (Raises cls msg, sandbox_self) =>
      except_Exception (settle h initial_state sandbox_self) payload_object_state cls msg
  | (Returns local_namespace, sandbox_self) =>
      let h := settle h initial_state sandbox_self in
      match local_namespace (method_name payload) with
      | None =>
          except_Exception h payload_object_state
            "ValueError" (not_callable_message (method_name payload))
      | Some method_to_call =>
          match method_to_call sandbox_self (args payload) (kwargs payload) with
          | (Raises cls msg, sandbox_self) =>
              except_Exception (settle h initial_state sandbox_self)
                payload_object_state cls msg
          | (Returns out, sandbox_self) =>
              let h := settle h initial_state sandbox_self in
              Returns {| output := out;
                         state_changed := _p_changed sandbox_self;
                         final_state := h !!! initial_state;
                         error := None |}
          end
      end
  end.
End Execute.

End Sandbox.

(** ** The prototype object ([UvmObject]) *)
Module Uvm.

(** An instance is its [__dict__].  After [__init__] it holds [_id],
    [_key], [attributes], [methods] and [_p_changed]. *)
Record UvmObject := { __dict__ : gmap string value }.

(** What an attribute read can yield: a stored value, something found in
    the class namespace (a bound method such as [to_doc], a slot of
    [object]), or the placeholder that [__getattr__] builds for a method
    name. *)
Inductive pyobject :=
  | Val (v : value)
  | ClassAttribute (name : string)
  | MethodPlaceholder.

(** Names that the class and its base [object] resolve through data
    descriptors; these win over the instance dictionary. *)
Definition data_descriptors : list string :=
  ["__class__"; "__dict__"; "__weakref__"].

(** Names bound in the namespace of [UvmObject] itself. *)
Definition class_namespace : list string :=
  ["__module__"; "__doc__"; "__init__"; "__getattr__"; "__setattr__";
   "to_doc"; "from_doc"; "__dict__"; "__weakref__"].

(** Names bound in the namespace of the base class [object]
    (CPython 3.11). *)
Definition object_namespace : list string :=
  ["__class__"; "__delattr__"; "__dir__"; "__doc__"; "__eq__";
   "__format__"; "__ge__"; "__getattribute__"; "__getstate__"; "__gt__";
   "__hash__"; "__init__"; "__init_subclass__"; "__le__"; "__lt__";
   "__ne__"; "__new__"; "__reduce__"; "__reduce_ex__"; "__repr__";
   "__setattr__"; "__sizeof__"; "__str__"; "__subclasshook__"].

(** [name in container] for a string [name]. *)
Definition contains (name : string) (container : value) : outcome bool :=
  match container with
  | VObj m => Returns (bool_decide (is_Some (m !! name)))
  | VList l =>
      Returns (existsb (λ v, match v with VStr s => String.eqb s name | _ => false end) l)
  | VStr s => Returns (bool_decide (is_Some (String.index 0 name s)))
  | _ => Raises "TypeError" "argument is not iterable"
  end.

(** [container[name]] for a string [name]. *)
Definition getitem (container : value) (name : string) : outcome value :=
  match container with
  | VObj m =>
      match m !! name with
      | Some v => Returns v
      | None => Raises "KeyError" name
      end
  | _ => Raises "TypeError" "indices must be integers"
  end.

(** [container[name] = v] for a string [name]; the dictionary is updated
    in place, which the result stands for. *)
Definition setitem (container : value) (name : string) (v : value) : outcome value :=
  match container with
  | VObj m => Returns (VObj (<[name := v]> m))
  | _ => Raises "TypeError" "object does not support item assignment"
  end.

(** Reading [self.attributes] inside the class.  When the instance
    dictionary has no such entry the read falls into [__getattr__], which
    reads [self.attributes] again, without end. *)
Definition read_attributes (self : UvmObject) : outcome value :=
  match __dict__ self !! "attributes" with
  | Some v => Returns v
  | None => Raises "RecursionError" "maximum recursion depth exceeded"
  end.

(** Reading [self.methods] inside the class.  A missing entry falls into
    [__getattr__("methods")], which serves it from the attribute mapping
    when that has a key [methods] and recurses without end otherwise. *)
Definition read_methods (self : UvmObject) : outcome value :=
  match __dict__ self !! "methods" with
  | Some v => Returns v
  | None =>
      attributes ← read_attributes self;
      found ← contains "methods" attributes;
      if found : bool then getitem attributes "methods"
      else Raises "RecursionError" "maximum recursion depth exceeded"
  end.

(** [__getattr__]: called only when the normal lookup fails. *)
Definition __getattr__ (self : UvmObject) (name : string) : outcome pyobject :=
  attributes ← read_attributes self;
  in_attributes ← contains name attributes;
  if in_attributes : bool then Val <$> getitem attributes name
  else
    methods ← read_methods self;
    in_methods ← contains name methods;
    if in_methods : bool then Returns MethodPlaceholder
    else Raises "AttributeError" name.

(** An attribute read [self.name]: Python's [object.__getattribute__]
    (data descriptors of the class, then the instance dictionary, then
    the rest of the class namespace) with [__getattr__] as the fallback. *)
Definition getattribute (self : UvmObject) (name : string) : outcome pyobject :=
  if bool_decide (name ∈ data_descriptors) then
    if String.eqb name "__dict__" then Returns (Val (VObj (__dict__ self)))
    else if String.eqb name "__weakref__" then Returns (Val VNull)
    else Returns (ClassAttribute name)
  else
    match __dict__ self !! name with
    | Some v => Returns (Val v)
    | None =>
        if bool_decide (name ∈ class_namespace ++ object_namespace)
        then Returns (ClassAttribute name)
        else __getattr__ self name
    end.

(** [super().__setattr__(name, value)], that is [object.__setattr__]:
    the three data descriptors have their own setters, every other name
    lands in the instance dictionary.  No value of the model is a class,
    so setting [__class__] always raises. *)
Definition object_setattr (self : UvmObject) (name : string) (v : value)
    : outcome UvmObject :=
  if String.eqb name "__class__" then
    Raises "TypeError" "__class__ must be set to a class"
  else if String.eqb name "__weakref__" then
    Raises "AttributeError" "attribute '__weakref__' is not writable"
  else if String.eqb name "__dict__" then
    match v with
    | VObj m => Returns {| __dict__ := m |}
    | _ => Raises "TypeError" "__dict__ must be set to a dictionary"
    end
  else Returns {| __dict__ := <[name := v]> (__dict__ self) |}.

(** [__setattr__].  In the second branch [self._p_changed = True]
    re-enters [__setattr__] with an underscore-prefixed name, hence goes
    to [object.__setattr__]. *)
Definition __setattr__ (self : UvmObject) (name : string) (v : value)
    : outcome UvmObject :=
  if String.prefix "_" name || bool_decide (name ∈ ["attributes"; "methods"]) then
    object_setattr self name v
  else
    attributes ← read_attributes self;
    attributes ← setitem attributes name v;
    let self := {| __dict__ := <["attributes" := attributes]> (__dict__ self) |} in
    object_setattr self "_p_changed" (VBool true).

Definition optional_str (s : option string) : value :=
  match s with Some s => VStr s | None => VNull end.

(** [__init__]: five assignments, each through [__setattr__]. *)
Definition __init__ (doc_id key : option string)
    (attributes : option (gmap string value))
    (methods : option (gmap string string)) : outcome UvmObject :=
  let self := {| __dict__ := ∅ |} in
  self ← __setattr__ self "_id" (optional_str doc_id);
  self ← __setattr__ self "_key" (optional_str key);
  self ← __setattr__ self "attributes" (VObj (default ∅ attributes));
  self ← __setattr__ self "methods" (VObj (VStr <$> default ∅ methods));
  __setattr__ self "_p_changed" (VBool false).

(** The dictionary handed to [from_doc], read with [doc.get]. *)
Record Doc := {
  doc_id : option string;
  doc_key : option string;
  doc_attributes : option (gmap string value);
  doc_methods : option (gmap string string)
}.

Definition from_doc (doc : Doc) : outcome UvmObject :=
  __init__ (doc_id doc) (doc_key doc)
           (Some (default ∅ (doc_attributes doc)))
           (Some (default ∅ (doc_methods doc))).

End Uvm.

(** ** The object store

    ArangoDB as the client uses it: the document collection [UvmObjects],
    the edge collection [PrototypeLinks], partial updates and the graph
    traversal of the resolver query. *)
Module Arango.

(** A stored object.  Every document of [UvmObjects] is created with
    both fields ([genesis.py]). *)
Record document := {
  attributes : gmap string value;
  methods : gmap string string
}.

(** A prototype link.  Vertices are named by their [_key]; the collection
    prefix [UvmObjects/] of a document handle is added by [handle]. *)
Record edge := { _from : string; _to : string }.

Record database := {
  UvmObjects : gmap string document;
  PrototypeLinks : list edge
}.

Definition handle (key : string) : string := "UvmObjects/" +:+ key.

(** The [mergeObjects] rule of a partial update ([update] is the store's
    PATCH; the interface section of the specification has it as
    [update(object_id, partial_fields, merge=true)]): where the stored
    value and the patch value are both objects they are merged key by key,
    recursively; anywhere else the patch value replaces the stored one.
    Keys absent from the patch keep their stored value. *)
Fixpoint merge_value (stored patch : value) {struct stored} : value :=
  match stored, patch with
  | VObj s, VObj p =>
      VObj (map_imap (λ k old,
              Some match p !! k with
                   | Some new => merge_value old new
                   | None => old
                   end) s ∪ p)
  | _, _ => patch
  end.

Definition merge_objects_of (stored patch : gmap string value) : gmap string value :=
  match merge_value (VObj stored) (VObj patch) with
  | VObj m => m
  | _ => patch
  end.

(** The body of an update request: the fields present in the patch. *)
Record patch := {
  patch_attributes : option (gmap string value);
  patch_methods : option (gmap string string)
}.

(** [merge_objects]: [None] when the caller leaves the option out, as the
    attribute write of [resolve_and_execute_method] does; the server
    default, [true], then applies.  [install_method] passes [True]. *)
Definition patch_document (merge_objects : option bool) (p : patch) (doc : document)
    : document :=
  let merging := default true merge_objects in
  {| attributes :=
       match patch_attributes p with
       | Some new => if merging then merge_objects_of (attributes doc) new else new
       | None => attributes doc
       end;
     methods :=
       match patch_methods p with
       | Some new => if merging then new ∪ methods doc else new
       | None => methods doc
       end |}.

(** [collection.update]: patches the document named by [_key]; [None]
    stands for the error raised when there is no such document. *)
Definition update (merge_objects : option bool) (key : string) (p : patch)
    (coll : gmap string document) : option (gmap string document) :=
  doc ← coll !! key;
  Some (<[key := patch_document merge_objects p doc]> coll).

(** The traversal [FOR v IN 0..depth OUTBOUND start PrototypeLinks] with
    the defaults of the query language: depth first, the start vertex
    first (depth 0), vertices may repeat, but no edge is used twice on
    one path.  Edges are identified by their position in the collection
    and tried in that order; [path] holds the edges of the current path. *)
Fixpoint traverse (depth : nat) (links : list (nat * edge)) (path : list nat)
    (v : string) : list string :=
  v :: match depth with
       | O => []
       | S depth' =>
           '(i, e) ← links;
           if bool_decide (_from e = v) && bool_decide (i ∉ path)
           then traverse depth' links (i :: path) (_to e)
           else []
       end.

Definition max_depth : nat := 100.

Definition outbound (d : database) (start : string) : list string :=
  traverse max_depth (imap pair (PrototypeLinks d)) [] start.

(** The resolver query:
    [FILTER HAS(v.methods, name)], [LIMIT 1],
    [RETURN { obj: v, code: v.methods[name] }].
    A vertex without a document has no [methods] and is filtered out. *)
Definition candidate (d : database) (name : string) (v : string)
    : option (string * document * string) :=
  doc ← UvmObjects d !! v;
  code ← methods doc !! name;
  Some (v, doc, code).

Definition resolver_query (d : database) (start name : string)
    : list (string * document * string) :=
  take 1 (omap (candidate d name) (outbound d start)).

End Arango.

(** ** The running system

    The mutable state the orchestrator and the client share, and a log of
    the calls they make to their collaborators.  The log is ghost state:
    no function reads it. *)
Module Runtime.

(** [Execute]: the payload was posted to the sandbox.
    [UpdateAttributes]: an attribute patch was sent to the store.
    [Generate]: the cognitive engine was asked for an implementation.
    [InstallMethod]: [install_method] was called. *)
Inductive event :=
  | Execute (payload : Sandbox.ExecutionPayload)
  | UpdateAttributes (key : string) (attributes : gmap string value)
  | Generate (method_name : string) (args : list value) (kwargs : gmap string value)
  | InstallMethod (target_id method_name code_string : string).

(** [db]: [DbClient.db], [None] before [initialize].
    [http_client]: whether [Orchestrator.http_client] is set.
    [generations]: the number of answers the engine has given so far. *)
Record world := {
  db : option Arango.database;
  http_client : bool;
  generations : nat;
  trace : list event
}.

Definition M (A : Type) : Type := world → A * world.

#[global] Instance M_ret : MRet M := λ A a w, (a, w).
#[global] Instance M_bind : MBind M := λ A B f m w, let '(a, w') := m w in f a w'.

Definition get : M world := λ w, (w, w).

(** The world with more events in its log, with another store, and after
    one more answer of the engine. *)
Definition logged (w : world) (new : list event) : world :=
  {| db := db w; http_client := http_client w;
     generations := generations w; trace := trace w ++ new |}.

Definition stored (w : world) (d : Arango.database) : world :=
  {| db := Some d; http_client := http_client w;
     generations := generations w; trace := trace w |}.

Definition answered (w : world) : world :=
  {| db := db w; http_client := http_client w;
     generations := S (generations w); trace := trace w |}.

Definition emit (e : event) : M () := λ w, (tt, logged w [e]).
Definition put_db (d : Arango.database) : M () := λ w, (tt, stored w d).
Definition next_generation : M nat := λ w, (generations w, answered w).

End Runtime.

(** ** The persistence client ([DbClient]) *)
Module DbClient.
Import Runtime.

Record MethodExecutionResult := {
  output : value;
  state_changed : bool;
  source_object_id : string
}.

Definition get_object (object_id : string) : M (option (outcome Uvm.UvmObject)) :=
  w ← get;
  match db w with
  | None => mret None
  | Some d =>
      match Arango.UvmObjects d !! object_id with
      | Some doc =>
          mret (Some (Uvm.from_doc
                  {| Uvm.doc_id := Some (Arango.handle object_id);
                     Uvm.doc_key := Some object_id;
                     Uvm.doc_attributes := Some (Arango.attributes doc);
                     Uvm.doc_methods := Some (Arango.methods doc) |}))
      | None => mret None
      end
  end.

Definition install_method (target_id method_name code_string : string) : M bool :=
  w ← get;
  match db w with
  | None => mret false
  | Some d =>
      let patch_data :=
        {| Arango.patch_attributes := None;
           Arango.patch_methods := Some {[ method_name := code_string ]} |} in
      match Arango.update (Some true) target_id patch_data (Arango.UvmObjects d) with
      | Some coll =>
          put_db {| Arango.UvmObjects := coll;
                    Arango.PrototypeLinks := Arango.PrototypeLinks d |};;
          mret true
      | None => mret false
      end
  end.

(** [result_data.get("error")] as a condition. *)
Definition truthy (s : option string) : bool :=
  match s with
  | Some s => negb (String.eqb s "")
  | None => false
  end.

Section Resolve.
Variable exec : Sandbox.interpreter.

(** [http_client.post(config.EXECUTION_SANDBOX_URL, json=...)],
    [response.raise_for_status()] and [response.json()]: the response
    of the handler, or the exception that one of the three raises when
    the handler ended without one. *)
Definition post (sandbox_payload : Sandbox.ExecutionPayload)
    : M (outcome Sandbox.Response) :=
  emit (Execute sandbox_payload);;
  mret (Sandbox.execute_code exec sandbox_payload).

Definition resolve_and_execute_method (start_object_id method_name : string)
    (args : list value) (kwargs : gmap string value)
    : M (option MethodExecutionResult) :=
  w ← get;
  match db w with
  | None => mret None
  | Some d =>
      match Arango.resolver_query d start_object_id method_name with
      | [] => mret None
      | (key, source_object_doc, code_to_execute) :: _ =>
          let sandbox_payload :=
            {| Sandbox.code := code_to_execute;
               Sandbox.method_name := method_name;
               Sandbox.object_state := Arango.attributes source_object_doc;
               Sandbox.args := args;
               Sandbox.kwargs := kwargs |} in
          response ← post sandbox_payload;
          match response with
          | Raises _ _ => mret None
          | Returns result_data =>
              if truthy (Sandbox.error result_data) then mret None
              else
                let result :=
                  {| output := Sandbox.output result_data;
                     state_changed := Sandbox.state_changed result_data;
                     source_object_id := Arango.handle key |} in
                if Sandbox.state_changed result_data then
                  let updated_attributes := Sandbox.final_state result_data in
                  let patch_doc :=
                    {| Arango.patch_attributes := Some updated_attributes;
                       Arango.patch_methods := None |} in
                  emit (UpdateAttributes key updated_attributes);;
                  match Arango.update None key patch_doc (Arango.UvmObjects d) with
                  | Some coll =>
                      put_db {| Arango.UvmObjects := coll;
                                Arango.PrototypeLinks := Arango.PrototypeLinks d |};;
                      mret (Some result)
                  | None => mret None
                  end
                else mret (Some result)
          end
      end
  end.
End Resolve.

End DbClient.

(** ** The orchestrator *)
Module Orchestrator.
Import Runtime.

(** What [process_message] hands back: the result dictionary, an error
    dictionary, or an exception that leaves it. *)
Inductive reply :=
  | Success (output : value) (state_changed : bool)
  | Failure (error : string)
  | Raised (cls msg : string).

(** The interpreter's stack has room for a number of nested dispatches
    ([sys.getrecursionlimit] less the frames below the first dispatch,
    two frames to a generation cycle); the call that exceeds it raises
    [RecursionError].  The limit is taken to strike at the orchestrator's
    own call, where nothing catches it. *)
Definition RecursionError : reply :=
  Raised "RecursionError" "maximum recursion depth exceeded".

Section Dispatch.
Variable ast_parse : string → outcome Security.ast.
Variable exec : Sandbox.interpreter.
(** The cognitive engine: its [n]-th answer to a mandate made of the
    method name and the call arguments; the empty string when it has
    nothing to offer. *)
Variable generate_code : nat → string → list value → gmap string value → string.

Definition ask_engine (method_name : string) (args : list value)
    (kwargs : gmap string value) : M string :=
  emit (Generate method_name args kwargs);;
  n ← next_generation;
  mret (generate_code n method_name args kwargs).

(** [does_not_understand], with the re-issued [process_message] call
    as a parameter. *)
Definition does_not_understand_with
    (reissue : string → string → list value → gmap string value → M reply)
    (target_id failed_method_name : string)
    (args : list value) (kwargs : gmap string value) : M reply :=
  generated_code ← ask_engine failed_method_name args kwargs;
  if String.eqb generated_code "" then mret (Failure "Code generation failed")
  else
    match Security.audit ast_parse generated_code with
    | Returns true =>
        emit (InstallMethod target_id failed_method_name generated_code);;
        success ← DbClient.install_method target_id failed_method_name generated_code;
        if success : bool then reissue target_id failed_method_name args kwargs
        else mret (Failure "Method installation failed")
    | Returns false => mret (Failure "Security audit failed")
    | Raises cls msg => mret (Raised cls msg)
    end.

(** [process_message] with [fuel] nested dispatches left on the stack. *)
Fixpoint process_message (fuel : nat) (target_id method_name : string)
    (args : list value) (kwargs : gmap string value) : M reply :=
  match fuel with
  | O => mret RecursionError
  | S fuel' =>
      w ← get;
      if negb (http_client w) then
        mret (Raised "RuntimeError" "HTTP client not initialized.")
      else
        method_result ← DbClient.resolve_and_execute_method exec
                          target_id method_name args kwargs;
        match method_result with
        | None =>
            does_not_understand_with (process_message fuel')
              target_id method_name args kwargs
        | Some method_result =>
            mret (Success (DbClient.output method_result)
                          (DbClient.state_changed method_result))
        end
  end.

Definition does_not_understand (fuel : nat) :=
  does_not_understand_with (process_message fuel).
End Dispatch.

End Orchestrator.

(** ** A concrete runtime for the examples

    A few method bodies, each with the syntax tree [ast.parse] builds for
    it and with what Python does when it runs.  The interpreter and the
    parser below know these texts and nothing else; any other text is a
    syntax error to them. *)
Module Demo.
Import Stdlib.Strings.Ascii Security Sandbox.

Definition greet_code : string :=
  "def greet(self, name): return 'Hello, ' + name".
Definition title_code : string :=
  "def greet(self, name): return self.attributes['title'] + name".
Definition open_code : string :=
  "def greet(self, name): return open(name).read()".
Definition bump_code : string :=
  "def bump(self): self.attributes['n'] = 1".
Definition touch_code : string :=
  "def touch(self): self._p_changed = True".
Definition boom_code : string :=
  "def boom(self): self.attributes['n'] = 1; raise ValueError('boom')".
Definition calm_code : string :=
  "def boom(self): return 'ok'".
Definition drop_code : string :=
  "def drop(self): self.attributes.pop('b'); self._p_changed = True".
Definition set_n_code : string :=
  "def set_n(self, v): self.attributes['n'] = v; self._p_changed = True".
Definition peek_code : string :=
  "def peek(self): return self.__class__.__name__".
Definition halt_code : string :=
  "def halt(self): self.attributes['n'] = 1; raise SystemExit(1)".
(** A text with a null byte. *)
Definition null_code : string := String "000"%char "def greet(self): pass".

(** *** Syntax trees *)
Definition other (cls : string) (children : list ast) : ast := Node (Other cls) "" children.
Definition load : ast := other "Load" [].
Definition store : ast := other "Store" [].
Definition constant : ast := other "Constant" [].
Definition name (id : string) : ast := Node Name id [load].
Definition attribute (v : ast) (attr : string) : ast := Node Attribute attr [v; load].
Definition attribute_store (v : ast) (attr : string) : ast := Node Attribute attr [v; store].
Definition subscript (v : ast) (ctx : ast) : ast := other "Subscript" [v; constant; ctx].
Definition call (func : ast) (args : list ast) : ast := other "Call" (func :: args).
Definition function_def (params : nat) (body : list ast) : ast :=
  other "FunctionDef" (other "arguments" (replicate params (other "arg" [])) :: body).
Definition module (body : list ast) : ast := other "Module" body.
Definition self_attributes : ast := attribute (name "self") "attributes".
Definition commit : ast :=
  other "Assign" [attribute_store (name "self") "_p_changed"; constant].

Definition greet_tree : ast :=
  module [function_def 2
    [other "Return" [other "BinOp" [constant; other "Add" []; name "name"]]]].
Definition title_tree : ast :=
  module [function_def 2
    [other "Return"
       [other "BinOp" [subscript self_attributes load; other "Add" []; name "name"]]]].
Definition open_tree : ast :=
  module [function_def 2
    [other "Return" [call (attribute (call (name "open") [name "name"]) "read") []]]].
Definition bump_tree : ast :=
  module [function_def 1 [other "Assign" [subscript self_attributes store; constant]]].
Definition touch_tree : ast := module [function_def 1 [commit]].
Definition boom_tree : ast :=
  module [function_def 1
    [other "Assign" [subscript self_attributes store; constant];
     other "Raise" [call (name "ValueError") [constant]]]].
Definition calm_tree : ast := module [function_def 1 [other "Return" [constant]]].
Definition drop_tree : ast :=
  module [function_def 1
    [other "Expr" [call (attribute self_attributes "pop") [constant]]; commit]].
Definition set_n_tree : ast :=
  module [function_def 2
    [other "Assign" [subscript self_attributes store; name "v"]; commit]].
Definition peek_tree : ast :=
  module [function_def 1
    [other "Return" [attribute (attribute (name "self") "__class__") "__name__"]]].
Definition halt_tree : ast :=
  module [function_def 1
    [other "Assign" [subscript self_attributes store; constant];
     other "Raise" [call (name "SystemExit") [constant]]]].

Definition library : list (string * ast) :=
  [(greet_code, greet_tree); (title_code, title_tree); (open_code, open_tree);
   (bump_code, bump_tree); (touch_code, touch_tree); (boom_code, boom_tree);
   (calm_code, calm_tree); (drop_code, drop_tree); (set_n_code, set_n_tree);
   (peek_code, peek_tree); (halt_code, halt_tree)].

Fixpoint has_null_byte (source : string) : bool :=
  match source with
  | EmptyString => false
  | String c rest => Ascii.eqb c "000"%char || has_null_byte rest
  end.

(** The parser on the texts of the library; a text with a null byte is
    refused with [ValueError], any other text as a syntax error. *)
Definition ast_parse (source : string) : outcome ast :=
  match List.find (λ entry, String.eqb (fst entry) source) library with
  | Some entry => Returns (snd entry)
  | None =>
      if has_null_byte source
      then Raises "ValueError" "source code string cannot contain null bytes"
      else Raises "SyntaxError" "invalid syntax"
  end.

(** *** Behaviour *)

(** Binding the call arguments of a function with the parameters [self]
    and, when [param] is given, one more. *)
Definition count (kwargs : gmap string value) : nat := base.size kwargs.

Definition no_argument (args : list value) (kwargs : gmap string value) : bool :=
  match args with
  | [] => bool_decide (count kwargs = 0)
  | _ => false
  end.

Definition one_argument (param : string) (args : list value) (kwargs : gmap string value)
    : option value :=
  match args with
  | [] => if bool_decide (count kwargs = 1) then kwargs !! param else None
  | [v] => if bool_decide (count kwargs = 0) then Some v else None
  | _ => None
  end.

Definition arity_error (self : SandboxObject) : outcome value * SandboxObject :=
  (Raises "TypeError" "wrong number of arguments", self).

Definition set_attribute (k : string) (v : value) (self : SandboxObject) : SandboxObject :=
  {| attributes := <[k := v]> (attributes self); _p_changed := _p_changed self |}.
Definition set_changed (self : SandboxObject) : SandboxObject :=
  {| attributes := attributes self; _p_changed := true |}.

Definition greet : callable := λ self args kwargs,
  match one_argument "name" args kwargs with
  | Some (VStr name) => (Returns (VStr ("Hello, " +:+ name)), self)
  | Some _ => (Raises "TypeError" "can only concatenate str to str", self)
  | None => arity_error self
  end.

Definition title : callable := λ self args kwargs,
  match one_argument "name" args kwargs with
  | Some name =>
      match attributes self !! "title", name with
      | None, _ => (Raises "KeyError" "'title'", self)
      | Some (VStr t), VStr name => (Returns (VStr (t +:+ name)), self)
      | Some _, _ => (Raises "TypeError" "unsupported operand types", self)
      end
  | None => arity_error self
  end.

Definition open_read : callable := λ self args kwargs,
  match one_argument "name" args kwargs with
  | Some _ => (Raises "FileNotFoundError" "No such file or directory", self)
  | None => arity_error self
  end.

Definition bump : callable := λ self args kwargs,
  if no_argument args kwargs then (Returns VNull, set_attribute "n" (VInt 1) self)
  else arity_error self.

Definition touch : callable := λ self args kwargs,
  if no_argument args kwargs then (Returns VNull, set_changed self)
  else arity_error self.

Definition boom : callable := λ self args kwargs,
  if no_argument args kwargs
  then (Raises "ValueError" "boom", set_attribute "n" (VInt 1) self)
  else arity_error self.

Definition calm : callable := λ self args kwargs,
  if no_argument args kwargs then (Returns (VStr "ok"), self)
  else arity_error self.

Definition drop : callable := λ self args kwargs,
  if no_argument args kwargs then
    match attributes self !! "b" with
    | Some _ =>
        (Returns VNull,
         set_changed {| attributes := delete "b" (attributes self);
                        _p_changed := _p_changed self |})
    | None => (Raises "KeyError" "'b'", self)
    end
  else arity_error self.

Definition set_n : callable := λ self args kwargs,
  match one_argument "v" args kwargs with
  | Some v => (Returns VNull, set_changed (set_attribute "n" v self))
  | None => arity_error self
  end.

Definition peek : callable := λ self args kwargs,
  if no_argument args kwargs then (Returns (VStr "SandboxObject"), self)
  else arity_error self.

Definition halt : callable := λ self args kwargs,
  if no_argument args kwargs
  then (Raises "SystemExit" "1", set_attribute "n" (VInt 1) self)
  else arity_error self.

Definition functions : list (string * (string * callable)) :=
  [(greet_code, ("greet", greet)); (title_code, ("greet", title));
   (open_code, ("greet", open_read)); (bump_code, ("bump", bump));
   (touch_code, ("touch", touch)); (boom_code, ("boom", boom));
   (calm_code, ("boom", calm)); (drop_code, ("drop", drop));
   (set_n_code, ("set_n", set_n)); (peek_code, ("peek", peek));
   (halt_code, ("halt", halt))].

(** Executing one of the texts binds its one function name. *)
Definition exec : interpreter := λ source self,
  match List.find (λ entry, String.eqb (fst entry) source) functions with
  | Some (_, (fname, f)) =>
      (Returns (λ name, if String.eqb name fname then Some f else None), self)
  | None => (Raises "SyntaxError" "invalid syntax", self)
  end.

(** An engine that answers every mandate with the same text. *)
Definition engine (answer : string)
    : nat → string → list value → gmap string value → string :=
  λ _ _ _ _, answer.

(** *** Stores *)
Definition blank : Arango.document :=
  {| Arango.attributes := ∅; Arango.methods := ∅ |}.

Definition link (child parent : string) : Arango.edge :=
  {| Arango._from := child; Arango._to := parent |}.

(** The store that [genesis.py] creates. *)
Definition genesis : Arango.database :=
  {| Arango.UvmObjects := {[ "nil" := blank; "system" := blank ]};
     Arango.PrototypeLinks := [link "system" "nil"] |}.

Definition declaring (attributes : gmap string value) (name code : string)
    : Arango.document :=
  {| Arango.attributes := attributes; Arango.methods := {[ name := code ]} |}.

(** [system] declares [boom], a body that raises. *)
Definition faulty : Arango.database :=
  {| Arango.UvmObjects := {[ "nil" := blank; "system" := declaring ∅ "boom" boom_code ]};
     Arango.PrototypeLinks := [link "system" "nil"] |}.

(** [A] delegates to [B], [B] to [nil]; only [B] declares [set_n]. *)
Definition family : Arango.database :=
  {| Arango.UvmObjects :=
       {[ "nil" := blank;
          "A" := {| Arango.attributes := {[ "n" := VInt 7 ]}; Arango.methods := ∅ |};
          "B" := declaring {[ "n" := VInt 0 ]} "set_n" set_n_code ]};
     Arango.PrototypeLinks := [link "A" "B"; link "B" "nil"] |}.


(** One object with two attributes and a method that removes one. *)
Definition box : Arango.database :=
  {| Arango.UvmObjects :=
       {[ "box" := declaring {[ "a" := VInt 1; "b" := VInt 2 ]} "drop" drop_code ]};
     Arango.PrototypeLinks := [] |}.

(** Two objects that delegate to each other; neither declares anything. *)
Definition ring : Arango.database :=
  {| Arango.UvmObjects := {[ "a" := blank; "b" := blank ]};
     Arango.PrototypeLinks := [link "a" "b"; link "b" "a"] |}.

(** A chain [o0 → o1 → ... → on] in which only [o holder] declares
    [greet]. *)
Definition vertex (i : nat) : string := "o" +:+ pretty i.

Definition chain (n holder : nat) : Arango.database :=
  {| Arango.UvmObjects :=
       <[vertex holder := declaring ∅ "greet" greet_code]>
         (list_to_map ((λ i, (vertex i, blank)) <$> seq 0 (S n)));
     Arango.PrototypeLinks := (λ i, link (vertex i) (vertex (S i))) <$> seq 0 n |}.

Definition running (d : Arango.database) : Runtime.world :=
  {| Runtime.db := Some d; Runtime.http_client := true;
     Runtime.generations := 0; Runtime.trace := [] |}.

(** *** Payloads and objects *)

(** A call of [method_name] without arguments on an object state. *)
Definition payload (code method_name : string) (state : gmap string value)
    : ExecutionPayload :=
  {| Sandbox.code := code; Sandbox.method_name := method_name;
     object_state := state; args := []; kwargs := ∅ |}.

(** [UvmObject()]: the instance dictionary after [__init__] without
    arguments. *)
Definition fresh : Uvm.UvmObject :=
  {| Uvm.__dict__ :=
       {[ "_id" := VNull; "_key" := VNull; "attributes" := VObj ∅;
          "methods" := VObj ∅; "_p_changed" := VBool false ]} |}.

(** The same object after [obj.__dict__ = {'attributes': {}, 'x': 1}]. *)
Definition shadowed : Uvm.UvmObject :=
  {| Uvm.__dict__ := {[ "attributes" := VObj ∅; "x" := VInt 1 ]} |}.

(** [UvmObject()] after [obj.attributes = 5]. *)
Definition overwritten : Uvm.UvmObject :=
  {| Uvm.__dict__ :=
       {[ "_id" := VNull; "_key" := VNull; "attributes" := VInt 5;
          "methods" := VObj ∅; "_p_changed" := VBool false ]} |}.

End Demo.

(** ** The vocabulary of the properties

    Predicates that the statements of Part II are written in.  They talk
    about the objects above but take no part in computing them. *)
Module Vocabulary.

(** *** Syntax trees *)
Section Trees.
Import Security.

(** [subnode n t]: [n] is [t] or occurs somewhere below it. *)
Inductive subnode (n : ast) : ast → Prop :=
  | subnode_here : subnode n n
  | subnode_below cls ident children child :
      child ∈ children → subnode n child → subnode n (Node cls ident children).

Definition is_import (n : ast) : Prop := type n = Import ∨ type n = ImportFrom.
Definition is_deletion (n : ast) : Prop := type n = Delete.
Definition references_denylisted (n : ast) : Prop :=
  (type n = Name ∧ id n ∈ name_denylist) ∨
  (type n = Attribute ∧ attr n ∈ name_denylist).
Definition forbidden (n : ast) : Prop :=
  is_import n ∨ references_denylisted n ∨ is_deletion n.

(** A name of the form [__x__]. *)
Definition is_dunder (ident : string) : bool :=
  String.prefix "__" ident && String.prefix "__" (String.rev ident)
  && bool_decide (4 < String.length ident).

(** An attribute access through a name of that form. *)
Definition references_reflection (n : ast) : Prop :=
  type n = Attribute ∧ is_dunder (attr n) = true.

(** The three tests of the audit loop as one boolean. *)
Definition flagged (node : ast) : bool :=
  bool_decide (type node ∈ denylist)
  || isinstance node Name && bool_decide (id node ∈ name_denylist)
  || isinstance node Attribute && bool_decide (attr node ∈ name_denylist).
End Trees.

(** *** Sandbox runs *)
Section Runs.
Import Sandbox.
Variable exec : interpreter.

(** What the handler answers to an exception of the body: the failure
    response, or nothing when the exception is not an [Exception]. *)
Definition caught (payload : ExecutionPayload) (cls msg : string) : outcome Response :=
  if is_exception cls then Returns (failure payload cls msg) else Raises cls msg.

(** A proxy that holds the submitted state, with the flag unset. *)
Definition fresh_proxy (payload : ExecutionPayload) : SandboxObject :=
  {| attributes := object_state payload; _p_changed := false |}.

(** The body of [payload] raises: while the text is executed, because
    the method name is not bound to a callable afterwards, or during
    the call.  [partial] is the proxy as the exception left it. *)
Inductive body_raises (payload : ExecutionPayload) : string → string → Prop :=
  | raises_in_exec cls msg partial :
      exec (code payload) (fresh_proxy payload) = (Raises cls msg, partial) →
      body_raises payload cls msg
  | raises_not_callable local_namespace self :
      exec (code payload) (fresh_proxy payload) = (Returns local_namespace, self) →
      local_namespace (method_name payload) = None →
      body_raises payload "ValueError" (not_callable_message (method_name payload))
  | raises_in_call local_namespace self method_to_call cls msg partial :
      exec (code payload) (fresh_proxy payload) = (Returns local_namespace, self) →
      local_namespace (method_name payload) = Some method_to_call →
      method_to_call self (args payload) (kwargs payload) = (Raises cls msg, partial) →
      body_raises payload cls msg.

(** The body of [payload] returns [out] and leaves the proxy as [final]. *)
Inductive body_returns (payload : ExecutionPayload) (out : value)
    (final : SandboxObject) : Prop :=
  | returns_from_call local_namespace self method_to_call :
      exec (code payload) (fresh_proxy payload) = (Returns local_namespace, self) →
      local_namespace (method_name payload) = Some method_to_call →
      method_to_call self (args payload) (kwargs payload) = (Returns out, final) →
      body_returns payload out final.

(** The reading of the change flag that compares the two mappings. *)
Definition reports_change_by_value (payload : ExecutionPayload) : Prop :=
  ∀ out final, body_returns payload out final →
    ∃ response, execute_code exec payload = Returns response ∧
      (state_changed response = true ↔ attributes final ≠ object_state payload) ∧
      (state_changed response = true → final_state response = attributes final).

End Runs.

(** *** Prototype objects *)
Section Objects.
Import Uvm.

(** Names that [__setattr__] routes into the attribute mapping. *)
Definition public (name : string) : Prop :=
  String.prefix "_" name = false ∧ name ≠ "attributes" ∧ name ≠ "methods".

(** The shape [__init__] gives the instance dictionary: [attributes]
    holds a mapping, and no public name has an entry of its own. *)
Definition well_formed (self : UvmObject) : Prop :=
  (∃ a, __dict__ self !! "attributes" = Some (VObj a)) ∧
  ∀ name, public name → __dict__ self !! name = None.

Definition attribute_mapping (self : UvmObject) : option value :=
  __dict__ self !! "attributes".
Definition changed_flag (self : UvmObject) : option value :=
  __dict__ self !! "_p_changed".

(** Names the class defines for itself without a leading underscore. *)
Definition class_methods : list string := ["to_doc"; "from_doc"].

(** The reading of attribute assignment under which every public name
    reads back the assigned value and every other name leaves the
    change flag alone. *)
Definition assignment_reads_back (self : UvmObject) (name : string) (v : value)
    : Prop :=
  (public name →
     ∃ a self',
       attribute_mapping self = Some (VObj a) ∧
       __setattr__ self name v = Returns self' ∧
       attribute_mapping self' = Some (VObj (<[name := v]> a)) ∧
       changed_flag self' = Some (VBool true) ∧
       getattribute self' name = Returns (Val v)) ∧
  (¬ public name →
     ∀ self', __setattr__ self name v = Returns self' →
       changed_flag self' = changed_flag self ∧
       (name ≠ "attributes" → attribute_mapping self' = attribute_mapping self)).
End Objects.

(** *** The prototype graph *)
Section Graph.
Import Arango.

(** [reach links n v w]: [w] is at most [n] outbound edges from [v]. *)
Inductive reach (links : list edge) : nat → string → string → Prop :=
  | reach_start n v : reach links n v v
  | reach_edge n v e w :
      e ∈ links → _from e = v → reach links n (_to e) w → reach links (S n) v w.

Definition declares (d : database) (key name : string) : Prop :=
  ∃ doc, UvmObjects d !! key = Some doc ∧ is_Some (methods doc !! name).

(** [route links v p w]: the edges at the positions [p], in this order,
    lead from [v] to [w]. *)
Inductive route (links : list edge) : string → list nat → string → Prop :=
  | route_nil v : route links v [] v
  | route_cons v i e p w :
      links !! i = Some e → _from e = v → route links (_to e) p w →
      route links v (i :: p) w.

(** The payload the client builds for a method found on [doc]. *)
Definition payload_of (name : string) (args : list value) (kwargs : gmap string value)
    (doc : document) (code : string) : Sandbox.ExecutionPayload :=
  {| Sandbox.code := code; Sandbox.method_name := name;
     Sandbox.object_state := attributes doc;
     Sandbox.args := args; Sandbox.kwargs := kwargs |}.

(** The store after the attribute patch [final] was applied to the
    document [doc] stored under [key]. *)
Definition persisted (d : database) (key : string) (doc : document)
    (final : gmap string value) : database :=
  {| UvmObjects :=
       <[key := {| attributes := merge_objects_of (attributes doc) final;
                   methods := methods doc |}]> (UvmObjects d);
     PrototypeLinks := PrototypeLinks d |}.

(** The store after [code] was installed as [name] on the document
    [doc] stored under [target]. *)
Definition installed (d : database) (target name code : string) (doc : document)
    : database :=
  {| UvmObjects :=
       <[target := {| attributes := attributes doc;
                      methods := {[ name := code ]} ∪ methods doc |}]> (UvmObjects d);
     PrototypeLinks := PrototypeLinks d |}.

(** [v] delegates to [parent] and to nothing else. *)
Definition sole_parent (links : list edge) (v parent : string) : Prop :=
  ∃ i, links !! i = Some {| _from := v; _to := parent |} ∧
       ∀ j e, links !! j = Some e → _from e = v → j = i.

(** Each object of [line] delegates to the next one, and to nothing
    else. *)
Definition delegation_line (links : list edge) (line : list string) : Prop :=
  ∀ k v parent,
    line !! k = Some v → line !! S k = Some parent → sole_parent links v parent.

End Graph.

(** *** Traces *)
Section Traces.
Import Runtime.
Variable ast_parse : string → outcome Security.ast.

(** The readings of the audit under which every dunder attribute is a
    denylisted identifier, and every failure of the parser a verdict. *)
Definition rejects_reflection : Prop :=
  ∀ code_string tree n,
    ast_parse code_string = Returns tree → subnode n tree → references_reflection n →
    Security.audit ast_parse code_string = Returns false.

Definition rejects_unparsed : Prop :=
  ∀ code_string cls msg,
    ast_parse code_string = Raises cls msg →
    Security.audit ast_parse code_string = Returns false.

(** An event carries no method body, or one that passes the audit. *)
Definition audited (e : event) : Prop :=
  match e with
  | Execute payload => Security.audit ast_parse (Sandbox.code payload) = Returns true
  | InstallMethod _ _ code_string => Security.audit ast_parse code_string = Returns true
  | _ => True
  end.

(** [w'] continues the log of [w] with events that carry audited
    bodies only. *)
Definition continues (w w' : world) : Prop :=
  ∃ new, trace w' = trace w ++ new ∧ Forall audited new.

(** The store of [w] holds an audited body for [name] on [target]. *)
Definition holds_audited (w : world) (target name : string) : Prop :=
  ∃ d doc code,
    db w = Some d ∧ Arango.UvmObjects d !! target = Some doc ∧
    Arango.methods doc !! name = Some code ∧
    Security.audit ast_parse code = Returns true.

Variable exec : Sandbox.interpreter.
Variable generate_code : nat → string → list value → gmap string value → string.

(** The two halves of the safety argument: a dispatch to an object that
    holds an audited body logs audited bodies only, and so does a
    generation cycle from any world. *)
Definition dispatch_safe (fuel : nat) : Prop :=
  ∀ target name args kwargs w,
    holds_audited w target name →
    continues w
      (Orchestrator.process_message ast_parse exec generate_code
         fuel target name args kwargs w).2.

Definition generation_safe (fuel : nat) : Prop :=
  ∀ target name args kwargs w,
    continues w
      (Orchestrator.does_not_understand ast_parse exec generate_code
         fuel target name args kwargs w).2.
End Traces.

Definition is_generate (target_method : string) (e : Runtime.event) : bool :=
  match e with
  | Runtime.Generate name _ _ => String.eqb name target_method
  | _ => false
  end.


End Vocabulary.

(** ** Scenarios

    The dispatches that the examples of Part II follow, on the runtime of
    [Demo]. *)
Module Scenario.
Import Arango Runtime Orchestrator Vocabulary.

(** A dispatch with the demo parser and interpreter, an engine that
    always answers [answer], and room on the stack for [fuel] nested
    dispatches. *)
Definition dispatch (answer : string) (fuel : nat) (target name : string)
    (args : list value) : M reply :=
  process_message Demo.ast_parse Demo.exec (Demo.engine answer) fuel target name args ∅.

Definition architect : list value := [VStr "Architect"].

(** [(system, "greet", ["Architect"], {})]. *)
Definition dispatch_greet (answer : string) (fuel : nat) : M reply :=
  dispatch answer fuel "system" "greet" architect.

(** How often the engine was asked for [greet]. *)
Definition requests (w : world) : nat :=
  length (filter (λ e, is_generate "greet" e = true) (trace w)).

(** [system] holds, as [greet], the body that reads the attribute
    [title], and has no such attribute. *)
Definition stuck (w : world) : Prop :=
  http_client w = true ∧
  ∃ d doc, db w = Some d ∧ UvmObjects d !! "system" = Some doc ∧
           methods doc !! "greet" = Some Demo.title_code ∧
           attributes doc !! "title" = None.

End Scenario.

(** ** Serialisation and assignment runs of the prototype object *)
Module UvmDocuments.
Import Uvm Arango.

(** Python's truth value of a stored value, and of what a read yields
    (a method or a class attribute is true). *)
Definition truth (v : value) : bool :=
  match v with
  | VNull => false
  | VBool b => b
  | VInt z => negb (z =? 0)%Z
  | VStr s => negb (String.eqb s "")
  | VList l => match l with [] => false | _ => true end
  | VObj m => negb (bool_decide (dom m = ∅))
  end.

Definition truthy_object (o : pyobject) : bool :=
  match o with
  | Val v => truth v
  | _ => true
  end.

(** [to_doc].  [self.attributes], [self.methods] and the two
    [self._key] are ordinary attribute reads. *)
Definition to_doc (self : UvmObject) : outcome (gmap string pyobject) :=
  attributes ← getattribute self "attributes";
  methods ← getattribute self "methods";
  let doc : gmap string pyobject :=
    {[ "attributes" := attributes; "methods" := methods ]} in
  key ← getattribute self "_key";
  if truthy_object key then
    key ← getattribute self "_key";
    Returns (<["_key" := key]> doc)
  else Returns doc.

(** The dictionary with the attributes and methods of [doc] and, unless
    it is missing or empty, its key. *)
Definition serialised (doc : Doc) : gmap string pyobject :=
  let fields : gmap string pyobject :=
    {[ "attributes" := Val (VObj (default ∅ (doc_attributes doc)));
       "methods" := Val (VObj (VStr <$> default ∅ (doc_methods doc))) ]} in
  match doc_key doc with
  | Some key => if String.eqb key "" then fields else <["_key" := Val (VStr key)]> fields
  | None => fields
  end.

(** The same for the document [doc] stored under [key]. *)
Definition stored_fields (key : string) (doc : document) : gmap string pyobject :=
  serialised {| doc_id := Some (handle key); doc_key := Some key;
                doc_attributes := Some (attributes doc);
                doc_methods := Some (methods doc) |}.

(** A run of assignment statements [self.name = v], in order. *)
Fixpoint assign (self : UvmObject) (updates : list (string * value))
    : outcome UvmObject :=
  match updates with
  | [] => Returns self
  | (name, v) :: updates => self ← __setattr__ self name v; assign self updates
  end.

(** An object loaded from a document with an attribute [color] and the
    methods [color] and [greet]. *)
Definition painted : Doc :=
  {| doc_id := Some "UvmObjects/p"; doc_key := Some "p";
     doc_attributes := Some {[ "color" := VStr "red" ]};
     doc_methods := Some {[ "color" := Demo.calm_code; "greet" := Demo.greet_code ]} |}.

Definition painted_object : UvmObject :=
  {| __dict__ :=
       {[ "_id" := VStr "UvmObjects/p"; "_key" := VStr "p";
          "attributes" := VObj {[ "color" := VStr "red" ]};
          "methods" := VObj {[ "color" := VStr Demo.calm_code;
                               "greet" := VStr Demo.greet_code ]};
          "_p_changed" := VBool false ]} |}.

End UvmDocuments.

(** ** What a dispatch leaves alone *)
Module Frame.
Import Arango Runtime.

(** [d'] has the links and the objects of [d], and every method table of
    [d] except, possibly, the entry [name] of [target]. *)
Definition keeps_structure (target name : string) (d d' : database) : Prop :=
  PrototypeLinks d' = PrototypeLinks d ∧
  dom (UvmObjects d') = dom (UvmObjects d) ∧
  ∀ key doc doc',
    UvmObjects d !! key = Some doc → UvmObjects d' !! key = Some doc' →
    ∀ method, (key ≠ target ∨ method ≠ name) →
              methods doc' !! method = methods doc !! method.

(** The same between two worlds; the client handle and an absent store
    stay as they are. *)
Definition keeps_world (target name : string) (w w' : world) : Prop :=
  http_client w' = http_client w ∧
  match db w, db w' with
  | Some d, Some d' => keeps_structure target name d d'
  | None, None => True
  | _, _ => False
  end.

(** [d'] differs from [d] in attributes only. *)
Definition keeps_methods (d d' : database) : Prop :=
  PrototypeLinks d' = PrototypeLinks d ∧
  dom (UvmObjects d') = dom (UvmObjects d) ∧
  ∀ key, methods <$> UvmObjects d' !! key = methods <$> UvmObjects d !! key.

(** The attribute patch that follows a run, if the run set the flag. *)
Definition write_back (key : string) (final : Sandbox.SandboxObject) : list event :=
  if Sandbox._p_changed final then [UpdateAttributes key (Sandbox.attributes final)] else [].

End Frame.

(** ** The API gateway ([main.py]) *)
Module Gateway.
Import Runtime Orchestrator.




Section Endpoints.
Variable ast_parse : string → outcome Security.ast.
Variable exec : Sandbox.interpreter.
Variable generate_code : nat → string → list value → gmap string value → string.


(** The two probes of [check_system_health]: [db.version()] on the
    connected database and [client.list()] on the model server. *)
Variable version : Arango.database → outcome ().
Variable ollama_list : outcome ().

Definition report (probe : outcome ()) : string :=
  match probe with
  | Returns _ => "OK"
  | Raises _ msg => "FAIL: " +:+ msg
  end.

(** [Orchestrator.check_system_health]; without a database the first
    probe fails on the missing attribute. *)
Definition check_system_health : M (gmap string string) :=
  w ← get;
  let arangodb :=
    match db w with
    | Some d => version d
    | None => Raises "AttributeError" "'NoneType' object has no attribute 'version'"
    end in
  mret {[ "arangodb" := report arangodb; "ollama" := report ollama_list ]}.

(** [GET /health]. *)
Definition get_system_health : M (nat * gmap string string) :=
  health ← check_system_health;
  let is_healthy := bool_decide (map_Forall (λ _ status, status = "OK") health) in
  mret (if is_healthy then 200 else 503, health).
End Endpoints.


End Gateway.

(** ** The command-line client ([parse_args]) *)
Module Cli.
Import Stdlib.Strings.Ascii Python.

(** [c in s] for a one-character string [c]. *)
Fixpoint occurs (c : Ascii.ascii) (s : string) : bool :=
  match s with
  | EmptyString => false
  | String a rest => Ascii.eqb a c || occurs c rest
  end.

(** [s.split(sep, 1)]: at most one cut, at the first separator. *)
Fixpoint split (sep : Ascii.ascii) (s : string) : list string :=
  match s with
  | EmptyString => [EmptyString]
  | String a rest =>
      if Ascii.eqb a sep then [EmptyString; rest]
      else match split sep rest with
           | head :: tail => String a head :: tail
           | [] => []
           end
  end.

Section ParseArgs.
(** The values [json.loads] produces, the parser itself and the
    embedding of a raw string among those values. *)
Context {J : Type}.
Variable json_loads : string → outcome J.
Variable str : string → J.

(** [try: json.loads(text)] with [except json.JSONDecodeError] falling
    back to the text itself; any other exception passes through. *)
Definition loads_or_text (text : string) : outcome J :=
  match json_loads text with
  | Returns v => Returns v
  | Raises cls msg =>
      if String.eqb cls "JSONDecodeError" then Returns (str text)
      else Raises cls msg
  end.

(** The body of the loop; [key, value = arg.split('=', 1)] raises when
    the split does not give two parts. *)
Definition parse_arg (acc : list J * gmap string J) (arg : string)
    : outcome (list J * gmap string J) :=
  let '(args, kwargs) := acc in
  if occurs "="%char arg then
    match split "="%char arg with
    | [key; value] =>
        v ← loads_or_text value;
        Returns (args, <[key := v]> kwargs)
    | _ => Raises "ValueError" "wrong number of values to unpack"
    end
  else
    v ← loads_or_text arg;
    Returns (args ++ [v], kwargs).

Fixpoint parse_loop (acc : list J * gmap string J) (args_list : list string)
    : outcome (list J * gmap string J) :=
  match args_list with
  | [] => Returns acc
  | arg :: args_list => acc ← parse_arg acc arg; parse_loop acc args_list
  end.

Definition parse_args (args_list : list string) : outcome (list J * gmap string J) :=
  parse_loop ([], ∅) args_list.

(** What a token is read as: its JSON value, or the token itself. *)
Definition decode (text : string) : J :=
  match json_loads text with
  | Returns v => v
  | Raises _ _ => str text
  end.

(** The parser raises nothing but [JSONDecodeError]. *)
Definition decode_errors_only : Prop :=
  ∀ text cls msg, json_loads text = Raises cls msg → cls = "JSONDecodeError".
End ParseArgs.

(** The token [key=text]. *)
Definition keyword (key text : string) : string := key +:+ String "="%char text.

(** A parser for the examples: it knows two numerals and rejects every
    other text. *)
Definition numerals (text : string) : outcome value :=
  if String.eqb text "1" then Returns (VInt 1)
  else if String.eqb text "2" then Returns (VInt 2)
  else Raises "JSONDecodeError" "Expecting value".

End Cli.

(** ** The cognitive engine ([metacog.py], [cascade.py]) *)
Module Cognitive.
Import Stdlib.Strings.Ascii Python.

(** [d.get(key, default)]; anything but a dictionary has no [get]. *)
Definition dict_get (d : value) (key : string) (default_value : value) : outcome value :=
  match d with
  | VObj m => Returns (default default_value (m !! key))
  | _ => Raises "AttributeError" "object has no attribute 'get'"
  end.

Section Metacog.
(** [str.isspace] on one character, and [json.loads] on a string. *)
Variable isspace : Ascii.ascii → bool.
Variable json_loads : string → outcome value.

(** [str.strip()] without arguments removes the whitespace at both ends. *)
Fixpoint lstrip (s : string) : string :=
  match s with
  | EmptyString => EmptyString
  | String c rest => if isspace c then lstrip rest else s
  end.

Fixpoint rstrip (s : string) : string :=
  match s with
  | EmptyString => EmptyString
  | String c rest =>
      match rstrip rest with
      | EmptyString => if isspace c then EmptyString else String c EmptyString
      | kept => String c kept
      end
  end.

Definition strip (s : string) : string := rstrip (lstrip s).

(** [json.loads(content)]: only a string can be decoded. *)
Definition loads (content : value) : outcome value :=
  match content with
  | VStr s => json_loads s
  | _ => Raises "TypeError" "the JSON object must be str, bytes or bytearray"
  end.

(** The [try] block of [parse_code_from_response]. *)
Definition parse_attempt (response : value) : outcome string :=
  message ← dict_get response "message" (VObj ∅);
  content ← dict_get message "content" (VStr "{}");
  parsed_json ← loads content;
  code ← dict_get parsed_json "python_code" (VStr "");
  match code with
  | VStr code =>
      if negb (String.eqb (strip code) "") then Returns (strip code) else Returns ""
  | _ => Returns ""
  end.

(** Both handlers return the empty string. *)
Definition parse_code_from_response (response : value) : string :=
  match parse_attempt response with
  | Returns code => code
  | Raises _ _ => ""
  end.

Fixpoint last_char (s : string) : option Ascii.ascii :=
  match s with
  | EmptyString => None
  | String c EmptyString => Some c
  | String _ rest => last_char rest
  end.

Definition first_char (s : string) : option Ascii.ascii :=
  match s with
  | EmptyString => None
  | String c _ => Some c
  end.

(** The text is not empty and has no whitespace at either end. *)
Definition trimmed (s : string) : Prop :=
  ∃ first last, first_char s = Some first ∧ last_char s = Some last ∧
                isspace first = false ∧ isspace last = false.

(** The response carries [text] as the [python_code] of the JSON object
    in its message content. *)
Definition carries (response : value) (text : string) : Prop :=
  ∃ fields message content parsed,
    response = VObj fields ∧
    fields !! "message" = Some (VObj message) ∧
    message !! "content" = Some (VStr content) ∧
    json_loads content = Returns (VObj parsed) ∧
    parsed !! "python_code" = Some (VStr text).
End Metacog.

(** [EntropyCascade]: the persona table and whether [initialize] has set
    the client. *)
Record EntropyCascade := {
  personas : gmap string string;
  client : bool
}.

Section Cascade.
Variable isspace : Ascii.ascii → bool.
Variable json_loads : string → outcome value.
(** [metacog.get_code_generation_prompt], and [client.chat] with the
    model, the system prompt and the user prompt. *)
Variable get_code_generation_prompt : string → string → string.
Variable chat : string → string → string → outcome value.

Definition generate_code (self : EntropyCascade)
    (creative_mandate method_name : string) : outcome string :=
  if negb (client self) then Raises "RuntimeError" "Ollama client not initialized."
  else
    let persona_name := "ALFRED" in
    let model := personas self !! persona_name in
    match model with
    | Some (String _ _ as model) =>
        let system_prompt := get_code_generation_prompt persona_name method_name in
        match chat model system_prompt creative_mandate with
        | Returns response =>
            Returns (parse_code_from_response isspace json_loads response)
        | Raises _ _ => Returns ""
        end
    | _ => Raises "ValueError" "Model for persona 'ALFRED' not found."
    end.
End Cascade.

(** For the examples: blanks and line feeds are whitespace, and the
    parser knows the empty object and one answer of the engine. *)
Definition blank_or_newline (c : Ascii.ascii) : bool :=
  Ascii.eqb c " "%char || Ascii.eqb c "010"%char.

Definition quoted (s : string) : string :=
  String "034"%char (s +:+ String "034"%char EmptyString).

Definition answer_text : string :=
  "{" +:+ quoted "python_code" +:+ ": " +:+ quoted " def f(self): pass " +:+ "}".

Definition sample_loads (text : string) : outcome value :=
  if String.eqb text "{}" then Returns (VObj ∅)
  else if String.eqb text answer_text then
    Returns (VObj {[ "python_code" := VStr " def f(self): pass " ]})
  else Raises "JSONDecodeError" "Expecting value".

Definition sample_response : value :=
  VObj {[ "message" := VObj {[ "content" := VStr answer_text ]} ]}.

End Cognitive.

(** ** The genesis script ([initialize_database]) *)
Module Genesis.
Import Python Arango.

(** The document inserted for [nil] and for [system]. *)
Definition empty_object : document := {| attributes := ∅; methods := ∅ |}.

(** [system -> nil]. *)
Definition root_link : edge := {| _from := "system"; _to := "nil" |}.

Definition has (collection : gmap string document) (key : string) : bool :=
  bool_decide (is_Some (collection !! key)).

Definition insert_object (key : string) (d : database) : database :=
  {| UvmObjects := <[key := empty_object]> (UvmObjects d);
     PrototypeLinks := PrototypeLinks d |}.

Definition insert_link (e : edge) (d : database) : database :=
  {| UvmObjects := UvmObjects d; PrototypeLinks := PrototypeLinks d ++ [e] |}.

(** The edges a [find] by example matches. *)
Definition find (example : edge) (links : list edge) : list edge :=
  filter (λ e, _from e = _from example ∧ _to e = _to example) links.

Section Initialize.
(** The truth value the driver gives the cursor that [find] returns for
    the matching edges; taking it may raise. *)
Variable cursor_truth : list edge → outcome bool.

(** [initialize_database] from the point where the collections exist:
    the two root objects and their link.  An exception is re-raised
    after what was written so far. *)
Definition initialize_database (d : database) : outcome () * database :=
  let d := if has (UvmObjects d) "nil" then d else insert_object "nil" d in
  if has (UvmObjects d) "system" then (Returns (), d)
  else
    let d := insert_object "system" d in
    match cursor_truth (find root_link (PrototypeLinks d)) with
    | Returns true => (Returns (), d)
    | Returns false => (Returns (), insert_link root_link d)
    | Raises cls msg => (Raises cls msg, d)
    end.
End Initialize.
End Genesis.

(* ===================================================================== *)
(** * Part II: the properties *)
(* ===================================================================== *)

(** ** The auditor *)
Section AuditProofs.
Import Security Vocabulary.

Lemma subnode_inv n cls ident children :
  subnode n (Node cls ident children) ↔
  n = Node cls ident children ∨ ∃ child, child ∈ children ∧ subnode n child.
Proof.
  split.
  - inversion 1; subst; eauto.
  - intros [-> | (child & Hin & Hsub)]; [constructor | econstructor; eauto].
Qed.

(** With enough fuel the queue walk yields exactly the nodes of the
    queued trees. *)
Lemma walk_queue_elem fuel : ∀ todo n,
  list_sum (map size todo) ≤ fuel →
  n ∈ walk_queue fuel todo ↔ ∃ t, t ∈ todo ∧ subnode n t.
Proof.
  induction fuel as [|fuel IH]; intros todo n Hfuel.
  - destruct todo as [|[cls ident cs] rest]; simpl in *; [|lia].
    split; [inversion 1 | intros (t & Ht & _); inversion Ht].
  - destruct todo as [|[cls ident cs] rest]; simpl in *.
    + split; [inversion 1 | intros (t & Ht & _); inversion Ht].
    + rewrite elem_of_cons, IH.
      2:{ rewrite map_app, list_sum_app. lia. }
      split.
      * intros [-> | (t & Ht & Hsub)].
        -- eexists; split; [left | constructor].
        -- apply elem_of_app in Ht as [Ht | Ht].
           ++ exists t; split; [by right | done].
           ++ eexists; split; [left | econstructor; eauto].
      * intros (t & Ht & Hsub). apply elem_of_cons in Ht as [-> | Ht].
        -- apply subnode_inv in Hsub as [-> | (child & Hin & Hsub)]; [by left|].
           right. exists child. split; [apply elem_of_app; by right | done].
        -- right. exists t. split; [apply elem_of_app; by left | done].
Qed.

Lemma walk_elem tree n : n ∈ walk tree ↔ subnode n tree.
Proof.
  unfold walk. rewrite walk_queue_elem by (simpl; lia).
  split.
  - intros (t & Ht & Hsub). apply list_elem_of_singleton in Ht as ->. done.
  - intros Hsub. exists tree. split; [apply list_elem_of_singleton; done | done].
Qed.

Lemma flagged_forbidden node : flagged node = true ↔ forbidden node.
Proof.
  unfold flagged, forbidden, is_import, is_deletion, references_denylisted,
    isinstance, denylist.
  rewrite !orb_true_iff, !andb_true_iff, !bool_decide_eq_true.
  rewrite !elem_of_cons, elem_of_nil. tauto.
Qed.

Lemma audit_loop_cons node rest :
  audit_loop (node :: rest) = if flagged node then false else audit_loop rest.
Proof.
  unfold flagged. simpl.
  destruct (bool_decide (type node ∈ denylist)); [done|].
  destruct (isinstance node Name && bool_decide (id node ∈ name_denylist)); [done|].
  by destruct (isinstance node Attribute && bool_decide (attr node ∈ name_denylist)).
Qed.

Lemma audit_loop_false nodes :
  audit_loop nodes = false ↔ ∃ n, n ∈ nodes ∧ forbidden n.
Proof.
  induction nodes as [|node rest IH].
  - split; [done | intros (n & Hn & _); inversion Hn].
  - rewrite audit_loop_cons. destruct (flagged node) eqn:Hf.
    + split; [|done]. intros _. exists node. split; [left|by apply flagged_forbidden].
    + rewrite IH. split.
      * intros (n & Hn & Hforb). exists n. split; [by right | done].
      * intros (n & Hn & Hforb). apply elem_of_cons in Hn as [-> | Hn]; [|eauto].
        apply flagged_forbidden in Hforb. congruence.
Qed.

Variable ast_parse : string → outcome ast.

Lemma audit_false code_string :
  audit ast_parse code_string = Returns false ↔
  (∃ cls msg, ast_parse code_string = Raises cls msg ∧ cls ∈ syntax_errors) ∨
  ∃ tree n, ast_parse code_string = Returns tree ∧ subnode n tree ∧ forbidden n.
Proof.
  unfold audit. destruct (ast_parse code_string) as [tree | cls msg].
  - split.
    + intros [= Hloop]. apply audit_loop_false in Hloop as (n & Hn & Hforb).
      right. exists tree, n. by rewrite <- walk_elem.
    + intros [(? & ? & ? & _) | (tree' & n & [= <-] & Hsub & Hforb)]; [done|].
      f_equal. apply audit_loop_false. exists n. by rewrite walk_elem.
  - case_bool_decide as Hcls.
    + split; [intros _; left; by exists cls, msg | done].
    + split; [done|]. intros [(cls' & msg' & [= <- <-] & ?) | (? & ? & ? & _)]; done.
Qed.

Lemma audit_raises code_string cls msg :
  audit ast_parse code_string = Raises cls msg ↔
  ast_parse code_string = Raises cls msg ∧ cls ∉ syntax_errors.
Proof.
  unfold audit. destruct (ast_parse code_string) as [tree | cls' msg'].
  - split; [done | by intros [? _]].
  - case_bool_decide as Hcls.
    + split; [done|]. by intros [[= <- <-] ?].
    + split; [by intros [= <- <-] | by intros [[= <- <-] _]].
Qed.

(** C5, as the code has it.  The audit fails exactly when the parser
    raises a syntax error or the tree contains, at any depth, an import
    node ([Import], [ImportFrom]), a [Name] or [Attribute] whose
    identifier is one of the eleven names of the denylist, or a [Delete]
    node; it passes exactly when the text parses and none of these
    occurs; and when the parser raises anything else, the audit gives no
    verdict: the exception leaves it. *)
Theorem C5_audit_verdict code_string :
  (audit ast_parse code_string = Returns false ↔
     (∃ cls msg, ast_parse code_string = Raises cls msg ∧ cls ∈ syntax_errors) ∨
     ∃ tree n, ast_parse code_string = Returns tree ∧ subnode n tree ∧
               (is_import n ∨ references_denylisted n ∨ is_deletion n)) ∧
  (audit ast_parse code_string = Returns true ↔
     ∃ tree, ast_parse code_string = Returns tree ∧
             ∀ n, subnode n tree →
                  ¬ is_import n ∧ ¬ references_denylisted n ∧ ¬ is_deletion n) ∧
  (∀ cls msg,
     audit ast_parse code_string = Raises cls msg ↔
     ast_parse code_string = Raises cls msg ∧ cls ∉ syntax_errors) ∧
  (∀ name, name ∈ name_denylist ↔
     name ∈ ["open"; "eval"; "exec"; "exit"; "quit"; "__import__";
             "os"; "sys"; "subprocess"; "shutil"; "socket"]).
Proof.
  split; [apply audit_false|]. split; [|split; [apply audit_raises|]].
  - split.
    + intros Htrue. unfold audit in Htrue.
      destruct (ast_parse code_string) as [tree | cls msg] eqn:Hparse.
      * injection Htrue as Hloop. exists tree. split; [done|]. intros n Hsub.
        assert (¬ forbidden n) as Hclean; [|unfold forbidden in Hclean; tauto].
        intros Hforb.
        assert (audit_loop (walk tree) = false) as Hfalse; [|congruence].
        apply audit_loop_false. exists n. by rewrite walk_elem.
      * by case_bool_decide.
    + intros (tree & Hparse & Hclean). unfold audit. rewrite Hparse. f_equal.
      apply not_false_iff_true. intros (n & Hn & Hforb)%audit_loop_false.
      apply walk_elem in Hn. specialize (Hclean n Hn).
      unfold forbidden in Hforb. tauto.
  - intros name. unfold name_denylist.
    rewrite !elem_of_union, !elem_of_singleton, !elem_of_cons, elem_of_nil. tauto.
Qed.

(** The denylist covers the file-open, dynamic-evaluation, process,
    environment and network names and the import dunder. *)
Example name_denylist_members :
  Forall (λ s, s ∈ name_denylist)
    ["open"; "eval"; "exec"; "exit"; "quit"; "__import__";
     "os"; "sys"; "subprocess"; "shutil"; "socket"].
Proof. repeat constructor; by vm_compute. Qed.

End AuditProofs.

Example audit_rejects_open_call :
  Security.audit Demo.ast_parse Demo.open_code = Returns false.
Proof. reflexivity. Qed.

Example audit_accepts_greeting :
  Security.audit Demo.ast_parse Demo.greet_code = Returns true.
Proof. reflexivity. Qed.

Example audit_rejects_unparsed :
  Security.audit Demo.ast_parse "def greet(self" = Returns false.
Proof. reflexivity. Qed.

Lemma peek_reflects :
  Vocabulary.subnode
    (Demo.attribute (Demo.attribute (Demo.name "self") "__class__") "__name__")
    Demo.peek_tree ∧
  Vocabulary.references_reflection
    (Demo.attribute (Demo.attribute (Demo.name "self") "__class__") "__name__").
Proof.
  split; [|by split].
  unfold Demo.peek_tree, Demo.module, Demo.function_def, Demo.other.
  eapply Vocabulary.subnode_below; [left|].
  eapply Vocabulary.subnode_below; [right; left|].
  eapply Vocabulary.subnode_below; [left|]. constructor.
Qed.

(** C5 fails as stated.  A body that reads [self.__class__.__name__]
    goes through two dunder attributes and passes the audit: of the
    dunder names only [__import__] is on the denylist.  And a text with
    a null byte does not parse, yet the audit does not answer with a
    failure: the parser's [ValueError] leaves it. *)
Lemma C5_counterexample :
  ¬ Vocabulary.rejects_reflection Demo.ast_parse ∧
  ¬ Vocabulary.rejects_unparsed Demo.ast_parse.
Proof.
  split; intros Hclaim.
  - destruct peek_reflects as [Hsub Hdunder].
    specialize (Hclaim Demo.peek_code Demo.peek_tree _ eq_refl Hsub Hdunder).
    vm_compute in Hclaim. discriminate Hclaim.
  - specialize (Hclaim Demo.null_code _ _ eq_refl).
    vm_compute in Hclaim. discriminate Hclaim.
Qed.

(** ** The sandbox *)
Section SandboxProofs.
Import Sandbox Vocabulary.
Variable exec : interpreter.

(** The handler in terms of values.  The copy is an object of its own,
    so what the body leaves in it never shows in [payload.object_state]. *)
Lemma execute_code_unfold payload :
  execute_code exec payload =
    match exec (code payload) (fresh_proxy payload) with
    | (Raises cls msg, _) => caught payload cls msg
    | (Returns local_namespace, self) =>
        match local_namespace (method_name payload) with
        | None => caught payload "ValueError" (not_callable_message (method_name payload))
        | Some method_to_call =>
            match method_to_call self (args payload) (kwargs payload) with
            | (Raises cls msg, _) => caught payload cls msg
            | (Returns out, final) =>
                Returns {| output := out;
                           state_changed := _p_changed final;
                           final_state := attributes final;
                           error := None |}
            end
        end
    end.
Proof.
  unfold execute_code, deepcopy, heap, ref. cbv zeta.
  set (h := ({[ 0 := object_state payload ]} : gmap nat (gmap string value))).
  set (copy := fresh (dom h)).
  assert (copy ≠ 0) as Hcopy.
  { intros Heq. apply (is_fresh (dom h)). fold copy. rewrite Heq.
    apply elem_of_dom. subst h. rewrite lookup_singleton_eq. by eexists. }
  assert (h !!! 0 = object_state payload) as Hstate
    by apply lookup_total_singleton_eq.
  rewrite Hstate, lookup_total_insert_eq.
  change {| attributes := object_state payload; _p_changed := false |}
    with (fresh_proxy payload).
  set (h1 := <[copy := object_state payload]> h).
  assert (∀ self, settle h1 copy self !!! 0 = object_state payload) as Hkept.
  { intros self. unfold settle, h1, heap, ref.
    rewrite !lookup_total_insert_ne by done. exact Hstate. }
  assert (∀ self self', settle (settle h1 copy self) copy self' = settle h1 copy self')
    as Hagain.
  { intros self self'. unfold settle, heap, ref. apply insert_insert_eq. }
  assert (∀ (h' : heap) cls msg, h' !!! 0 = object_state payload →
            except_Exception h' 0 cls msg = caught payload cls msg) as Hcaught.
  { intros h' cls msg Hh'. unfold except_Exception, caught, failure, heap, ref in *.
    by rewrite Hh'. }
  destruct (exec (code payload) (fresh_proxy payload)) as [[local_namespace | cls msg] self].
  - destruct (local_namespace (method_name payload)) as [method_to_call|].
    + destruct (method_to_call self (args payload) (kwargs payload))
        as [[out | cls msg] final].
      * unfold settle, heap, ref. by rewrite lookup_total_insert_eq.
      * apply Hcaught. rewrite Hagain. apply Hkept.
    + apply Hcaught, Hkept.
  - apply Hcaught, Hkept.
Qed.

Lemma execute_code_raises payload cls msg :
  body_raises exec payload cls msg →
  execute_code exec payload = caught payload cls msg.
Proof.
  intros Hraises. rewrite execute_code_unfold.
  destruct Hraises as [cls msg partial Hexec
                      | local_namespace self Hexec Hget
                      | local_namespace self method_to_call cls msg partial Hexec Hget Hcall];
    rewrite Hexec; [done | by rewrite Hget | by rewrite Hget, Hcall].
Qed.

Lemma execute_code_returns payload out final :
  body_returns exec payload out final →
  execute_code exec payload =
    Returns {| output := out;
               state_changed := _p_changed final;
               final_state := attributes final;
               error := None |}.
Proof.
  intros [local_namespace self method_to_call Hexec Hget Hcall].
  rewrite execute_code_unfold. by rewrite Hexec, Hget, Hcall.
Qed.

(** A run either returns or raises. *)
Lemma body_returns_or_raises payload :
  (∃ out final, body_returns exec payload out final) ∨
  (∃ cls msg, body_raises exec payload cls msg).
Proof.
  destruct (exec (code payload) (fresh_proxy payload))
    as [[local_namespace | cls msg] self] eqn:Hexec.
  - destruct (local_namespace (method_name payload)) as [f|] eqn:Hget.
    + destruct (f self (args payload) (kwargs payload)) as [[out | cls msg] final] eqn:Hcall.
      * left. exists out, final. econstructor; eauto.
      * right. exists cls, msg. eapply raises_in_call; eauto.
    + right. eexists _, _. eapply raises_not_callable; eauto.
  - right. exists cls, msg. eapply raises_in_exec; eauto.
Qed.


(** C3, as the code has it.  On a run that returns, [state_changed] is the
    proxy's [_p_changed] flag as the body left it, hence false unless the
    body set it, and [final_state] is the working copy, whether or not
    the two mappings differ. *)
Theorem C3_flag_is_reported payload out final :
  body_returns exec payload out final →
  ∃ response,
    execute_code exec payload = Returns response ∧
    state_changed response = _p_changed final ∧
    final_state response = attributes final ∧
    output response = out ∧
    error response = None.
Proof.
  intros Hret. rewrite (execute_code_returns _ _ _ Hret). by eexists.
Qed.
End SandboxProofs.

Lemma bump_returns :
  Vocabulary.body_returns Demo.exec (Demo.payload Demo.bump_code "bump" ∅) VNull
    {| Sandbox.attributes := {[ "n" := VInt 1 ]}; Sandbox._p_changed := false |}.
Proof. by eapply Vocabulary.returns_from_call. Qed.

Lemma touch_returns :
  Vocabulary.body_returns Demo.exec (Demo.payload Demo.touch_code "touch" ∅) VNull
    {| Sandbox.attributes := ∅; Sandbox._p_changed := true |}.
Proof. by eapply Vocabulary.returns_from_call. Qed.



Lemma singleton_not_empty (k : string) (v : value) : ({[ k := v ]} : gmap string value) ≠ ∅.
Proof. apply insert_non_empty. Qed.

(** C3 fails as stated.  [bump] writes [n] into the working copy and does
    not set the flag: the mappings differ, yet [state_changed] is false.
    [touch] sets the flag and writes nothing: the mappings are equal, yet
    [state_changed] is true. *)
Lemma C3_counterexample :
  ¬ Vocabulary.reports_change_by_value Demo.exec (Demo.payload Demo.bump_code "bump" ∅) ∧
  ¬ Vocabulary.reports_change_by_value Demo.exec (Demo.payload Demo.touch_code "touch" ∅).
Proof.
  split; intros Hclaim.
  - destruct (Hclaim _ _ bump_returns) as (response & Hrun & [_ Hdiffer] & _).
    rewrite (execute_code_returns _ _ _ _ bump_returns) in Hrun. injection Hrun as <-.
    discriminate Hdiffer. apply singleton_not_empty.
  - destruct (Hclaim _ _ touch_returns) as (response & Hrun & [Hchanged _] & _).
    rewrite (execute_code_returns _ _ _ _ touch_returns) in Hrun. injection Hrun as <-.
    by apply Hchanged.
Qed.

(** C3 at [bump] on the empty state: the run returns, the flag is unset
    and the working copy, with [n], is the final state. *)
Lemma C3_flag_is_reported_witness :
  ∃ response,
    Sandbox.execute_code Demo.exec (Demo.payload Demo.bump_code "bump" ∅)
      = Returns response ∧
    Sandbox.state_changed response = false ∧
    Sandbox.final_state response = {[ "n" := VInt 1 ]}.
Proof.
  destruct (C3_flag_is_reported Demo.exec _ _ _ bump_returns)
    as (response & Hrun & Hflag & Hstate & _).
  exists response. split; [exact Hrun|]. split; [exact Hflag | exact Hstate].
Defined.



(** ** The prototype object *)
Section UvmProofs.
Import Uvm Vocabulary.

Lemma init_returns doc_id key a m :
  __init__ doc_id key a m =
    Returns {| __dict__ :=
      <["_p_changed" := VBool false]>
        (<["methods" := VObj (VStr <$> default ∅ m)]>
           (<["attributes" := VObj (default ∅ a)]>
              (<["_key" := optional_str key]>
                 (<["_id" := optional_str doc_id]> ∅)))) |}.
Proof. reflexivity. Qed.

Lemma public_prefix name : public name → String.prefix "_" name = false.
Proof. by intros [? _]. Qed.

Lemma underscore_names (names : list string) name :
  forallb (String.prefix "_") names = true →
  String.prefix "_" name = false → name ∉ names.
Proof.
  intros Hall Hname Hin. rewrite forallb_forall in Hall.
  apply list_elem_of_In in Hin. specialize (Hall _ Hin). congruence.
Qed.

Lemma public_in_class name :
  String.prefix "_" name = false →
  name ∈ class_namespace ++ object_namespace ↔ name ∈ class_methods.
Proof.
  intros Hname. unfold class_namespace, class_methods.
  change (?a :: ?b :: ?c :: ?d :: ?e :: "to_doc" :: "from_doc" :: ?rest)
    with ([a; b; c; d; e] ++ ["to_doc"; "from_doc"] ++ rest).
  rewrite <- !app_assoc, !elem_of_app.
  pose proof (underscore_names
    ["__module__"; "__doc__"; "__init__"; "__getattr__"; "__setattr__"] name eq_refl Hname).
  pose proof (underscore_names ["__dict__"; "__weakref__"] name eq_refl Hname).
  pose proof (underscore_names object_namespace name eq_refl Hname).
  tauto.
Qed.

Lemma public_not_descriptor name :
  String.prefix "_" name = false → name ∉ data_descriptors.
Proof. apply underscore_names. reflexivity. Qed.

Lemma prefix_false_ne name other :
  String.prefix "_" name = false → String.prefix "_" other = true → name ≠ other.
Proof. intros ?? ->. congruence. Qed.

(** What a public assignment does to a well-formed object. *)
Lemma setattr_public self name v a :
  public name →
  __dict__ self !! "attributes" = Some (VObj a) →
  __setattr__ self name v =
    Returns {| __dict__ :=
      <["_p_changed" := VBool true]>
        (<["attributes" := VObj (<[name := v]> a)]> (__dict__ self)) |}.
Proof.
  intros (Hprefix & Hattr & Hmeth) Hdict. unfold __setattr__.
  rewrite Hprefix. simpl.
  rewrite bool_decide_eq_false_2.
  2:{ rewrite !elem_of_cons, elem_of_nil. tauto. }
  unfold read_attributes. rewrite Hdict. reflexivity.
Qed.

Lemma getattribute_public self name v a :
  public name →
  __dict__ self !! name = None →
  __dict__ self !! "attributes" = Some (VObj a) →
  a !! name = Some v →
  getattribute self name =
    Returns (if bool_decide (name ∈ class_methods) then ClassAttribute name else Val v).
Proof.
  intros (Hprefix & Hattr & Hmeth) Hnone Hdict Hlookup. unfold getattribute.
  rewrite bool_decide_eq_false_2 by by apply public_not_descriptor.
  rewrite Hnone.
  rewrite (bool_decide_ext _ _ (public_in_class name Hprefix)).
  case_bool_decide; [done|].
  unfold __getattr__, read_attributes. rewrite Hdict. simpl.
  rewrite bool_decide_eq_true_2 by by eexists.
  by rewrite Hlookup.
Qed.

Lemma object_setattr_plain self name v :
  name ∉ data_descriptors →
  object_setattr self name v = Returns {| __dict__ := <[name := v]> (__dict__ self) |}.
Proof.
  unfold data_descriptors. rewrite !elem_of_cons, elem_of_nil. intros Hname.
  unfold object_setattr.
  destruct (String.eqb_spec name "__class__"); [tauto|].
  destruct (String.eqb_spec name "__weakref__"); [tauto|].
  destruct (String.eqb_spec name "__dict__"); [tauto|]. done.
Qed.

Lemma object_setattr_inv self name v self' :
  object_setattr self name v = Returns self' →
  name ≠ "__dict__" →
  __dict__ self' = <[name := v]> (__dict__ self).
Proof.
  unfold object_setattr.
  destruct (String.eqb_spec name "__class__"); [done|].
  destruct (String.eqb_spec name "__weakref__"); [done|].
  destruct (String.eqb_spec name "__dict__"); [done|].
  by intros [= <-].
Qed.

(** C10, as the code has it.  On an object whose [attributes] entry is a
    mapping and whose instance dictionary has no entry for a public
    name, assigning to a public name stores the value in the attribute
    mapping and sets [_p_changed]; the name then reads back as the value,
    unless the class defines it ([to_doc], [from_doc]), in which case the
    read yields the class's own attribute.  Assigning to any other name
    than [__dict__] leaves [_p_changed] as it was unless the name is
    [_p_changed], and leaves the attribute mapping as it was unless the
    name is [attributes], whose assignment replaces the mapping. *)
Theorem C10_attribute_assignment self name v :
  (well_formed self → public name →
     ∃ a self',
       attribute_mapping self = Some (VObj a) ∧
       __setattr__ self name v = Returns self' ∧
       attribute_mapping self' = Some (VObj (<[name := v]> a)) ∧
       changed_flag self' = Some (VBool true) ∧
       getattribute self' name =
         Returns (if bool_decide (name ∈ class_methods)
                  then ClassAttribute name else Val v)) ∧
  (String.prefix "_" name = true ∨ name ∈ ["attributes"; "methods"] →
     name ≠ "__dict__" →
     ∀ self', __setattr__ self name v = Returns self' →
       (name ≠ "_p_changed" → changed_flag self' = changed_flag self) ∧
       (name ≠ "attributes" → attribute_mapping self' = attribute_mapping self) ∧
       (name = "attributes" → attribute_mapping self' = Some v)).
Proof.
  split.
  - intros [[a Hdict] Hfree] Hpublic.
    pose proof Hpublic as (Hprefix & Hattr & Hmeth).
    exists a. eexists. split; [exact Hdict|].
    split; [by apply setattr_public|].
    unfold attribute_mapping, changed_flag. simpl.
    rewrite lookup_insert_ne by done. rewrite !lookup_insert_eq.
    split; [done|]. split; [done|].
    apply getattribute_public with (a := <[name := v]> a); [done| | |].
    + simpl. rewrite !lookup_insert_ne; [by apply Hfree | congruence |].
      intros <-. by vm_compute in Hprefix.
    + simpl. by rewrite lookup_insert_ne, lookup_insert_eq.
    + apply lookup_insert_eq.
  - intros Hbypass Hdict self'. unfold __setattr__.
    replace (String.prefix "_" name || bool_decide (name ∈ ["attributes"; "methods"]))
      with true.
    2:{ symmetry. apply orb_true_iff. destruct Hbypass; [by left|right].
        by apply bool_decide_eq_true. }
    intros Hset. apply object_setattr_inv in Hset; [|done].
    unfold attribute_mapping, changed_flag. rewrite Hset.
    split; [|split].
    + intros ?. by rewrite lookup_insert_ne.
    + intros ?. by rewrite lookup_insert_ne.
    + intros ->. by rewrite lookup_insert_eq.
Qed.

Lemma init_well_formed doc_id key a m self :
  __init__ doc_id key a m = Returns self → well_formed self.
Proof.
  rewrite init_returns. intros [= <-]. split; simpl.
  - exists (default ∅ a). by rewrite lookup_insert_ne, lookup_insert_ne, lookup_insert_eq.
  - intros name (Hprefix & Hattr & Hmeth).
    rewrite !lookup_insert_ne; [done|..]; try congruence;
      intros <-; by vm_compute in Hprefix.
Qed.

Lemma setattr_well_formed self name v self' :
  well_formed self →
  __setattr__ self name v = Returns self' →
  name ≠ "__dict__" →
  (name = "attributes" → ∃ a, v = VObj a) →
  well_formed self'.
Proof.
  intros [[a Hdict] Hfree] Hset Hname Hvalue.
  destruct (decide (String.prefix "_" name = true ∨ name ∈ ["attributes"; "methods"]))
    as [Hbypass | Hpublic].
  - unfold __setattr__ in Hset.
    replace (String.prefix "_" name || bool_decide (name ∈ ["attributes"; "methods"]))
      with true in Hset.
    2:{ symmetry. apply orb_true_iff. destruct Hbypass; [by left|right].
        by apply bool_decide_eq_true. }
    apply object_setattr_inv in Hset; [|done]. split; rewrite Hset.
    + destruct (decide (name = "attributes")) as [-> | Hne].
      * destruct (Hvalue eq_refl) as [a' ->]. exists a'. apply lookup_insert_eq.
      * exists a. by rewrite lookup_insert_ne.
    + intros other Hother. rewrite lookup_insert_ne; [by apply Hfree|].
      intros <-. destruct Hother as (Hp & Ha & Hm).
      rewrite !elem_of_cons, elem_of_nil in Hbypass. destruct Hbypass as [? | [? | [? | []]]];
        congruence.
  - assert (public name) as Hpub.
    { rewrite !elem_of_cons, elem_of_nil in Hpublic.
      destruct (String.prefix "_" name) eqn:?; [tauto|]. repeat split; tauto. }
    rewrite (setattr_public _ _ _ _ Hpub Hdict) in Hset. injection Hset as <-.
    split; simpl.
    + eexists. by rewrite lookup_insert_ne, lookup_insert_eq.
    + intros other (Hp & Ha & Hm). rewrite !lookup_insert_ne; [by apply Hfree | congruence |].
      intros <-. by vm_compute in Hp.
Qed.
End UvmProofs.

Lemma fresh_is_init : Uvm.__init__ None None None None = Returns Demo.fresh.
Proof. vm_compute. reflexivity. Qed.

Lemma fresh_well_formed : Vocabulary.well_formed Demo.fresh.
Proof. eapply init_well_formed, fresh_is_init. Qed.

Lemma public_color : Vocabulary.public "color".
Proof. by repeat split. Qed.

Lemma public_to_doc : Vocabulary.public "to_doc".
Proof. by repeat split. Qed.

Lemma p_changed_not_public : ¬ Vocabulary.public "_p_changed".
Proof. by intros [? _]. Qed.

Lemma public_x : Vocabulary.public "x".
Proof. by repeat split. Qed.

Lemma dict_not_public : ¬ Vocabulary.public "__dict__".
Proof. by intros [? _]. Qed.

Lemma shadowed_is_reachable :
  Uvm.__setattr__ Demo.fresh "__dict__" (VObj {[ "attributes" := VObj ∅; "x" := VInt 1 ]})
    = Returns Demo.shadowed.
Proof. reflexivity. Qed.

Lemma overwritten_is_reachable :
  Uvm.__setattr__ Demo.fresh "attributes" (VInt 5) = Returns Demo.overwritten.
Proof. vm_compute. reflexivity. Qed.

(** C10 fails as stated.  [to_doc] is a public name, yet after
    [obj.to_doc = 5] the read [obj.to_doc] yields the class's method;
    [obj._p_changed = True] is an assignment to an underscore-prefixed name
    that changes [_p_changed], and [obj.__dict__ = {}] one that removes it;
    on an object whose instance dictionary has an entry [x] of its own,
    [obj.x = 2] stores 2 in the attribute mapping while [obj.x] still reads
    1; and on an object whose [attributes] is not a mapping, [obj.x = 2]
    raises. *)
Lemma C10_counterexample :
  ¬ Vocabulary.assignment_reads_back Demo.fresh "to_doc" (VInt 5) ∧
  ¬ Vocabulary.assignment_reads_back Demo.fresh "_p_changed" (VBool true) ∧
  ¬ Vocabulary.assignment_reads_back Demo.fresh "__dict__" (VObj ∅) ∧
  ¬ Vocabulary.assignment_reads_back Demo.shadowed "x" (VInt 2) ∧
  ¬ Vocabulary.assignment_reads_back Demo.overwritten "x" (VInt 2).
Proof.
  repeat split; intros [Hpublic Hbypass].
  - destruct (Hpublic public_to_doc) as (a & self' & _ & Hset & _ & _ & Hread).
    vm_compute in Hset. injection Hset as <-. vm_compute in Hread. discriminate Hread.
  - destruct (Hbypass p_changed_not_public _ eq_refl) as [Hflag _].
    vm_compute in Hflag. discriminate Hflag.
  - destruct (Hbypass dict_not_public _ eq_refl) as [Hflag _].
    vm_compute in Hflag. discriminate Hflag.
  - destruct (Hpublic public_x) as (a & self' & _ & Hset & _ & _ & Hread).
    vm_compute in Hset. injection Hset as <-. vm_compute in Hread. discriminate Hread.
  - destruct (Hpublic public_x) as (a & self' & _ & Hset & _).
    vm_compute in Hset. discriminate Hset.
Qed.

(** C10 on a fresh object: [color] reads back, [to_doc] reads the class's
    method, and setting [_key] leaves the flag unset. *)
Lemma C10_attribute_assignment_witness :
  (∃ self',
     Uvm.__setattr__ Demo.fresh "color" (VStr "red") = Returns self' ∧
     Vocabulary.changed_flag self' = Some (VBool true) ∧
     Uvm.getattribute self' "color" = Returns (Uvm.Val (VStr "red"))) ∧
  (∃ self',
     Uvm.__setattr__ Demo.fresh "to_doc" (VInt 5) = Returns self' ∧
     Uvm.getattribute self' "to_doc" = Returns (Uvm.ClassAttribute "to_doc")) ∧
  (∀ self', Uvm.__setattr__ Demo.fresh "_key" (VStr "k") = Returns self' →
     Vocabulary.changed_flag self' = Some (VBool false)).
Proof.
  split; [|split].
  - destruct (proj1 (C10_attribute_assignment Demo.fresh "color" (VStr "red"))
                fresh_well_formed public_color) as (a & self' & _ & Hset & _ & Hflag & Hread).
    exists self'. split; [exact Hset | split; [exact Hflag | exact Hread]].
  - destruct (proj1 (C10_attribute_assignment Demo.fresh "to_doc" (VInt 5))
                fresh_well_formed public_to_doc) as (a & self' & _ & Hset & _ & _ & Hread).
    exists self'. split; [exact Hset | exact Hread].
  - intros self' Hset.
    destruct (proj2 (C10_attribute_assignment Demo.fresh "_key" (VStr "k"))
                (or_introl eq_refl) ltac:(discriminate) self' Hset) as (Hflag & _).
    rewrite Hflag; [reflexivity | discriminate].
Defined.

(** ** The resolver *)
Section GraphProofs.
Import Arango Vocabulary.

Lemma traverse_head depth links path v :
  ∃ tail, traverse depth links path v = v :: tail.
Proof. destruct depth; simpl; eauto. Qed.

(** Whatever the traversal yields lies within [depth] edges. *)
Lemma traverse_sound (es : list edge) depth : ∀ path v w,
  w ∈ traverse depth (imap pair es) path v → reach es depth v w.
Proof.
  induction depth as [|depth IH]; intros path v w; simpl.
  - rewrite list_elem_of_singleton. intros ->. constructor.
  - rewrite elem_of_cons. intros [-> | Hin]; [constructor|].
    apply list_elem_of_bind in Hin as ([i e] & Hin & Hie).
    destruct (bool_decide (_from e = v)) eqn:Hfrom; simpl in Hin;
      [|by apply elem_of_nil in Hin].
    destruct (bool_decide (i ∉ path)); simpl in Hin; [|by apply elem_of_nil in Hin].
    apply bool_decide_eq_true in Hfrom.
    apply elem_of_lookup_imap in Hie as (j & e' & [= -> ->] & Hlookup).
    econstructor; [by eapply list_elem_of_lookup_2 | done | by eapply IH].
Qed.

Lemma reach_route es n v w : reach es n v w → ∃ p, route es v p w ∧ length p ≤ n.
Proof.
  induction 1 as [n v | n v e w He Hfrom Hreach (p & Hp & Hlen)].
  - exists []. split; [constructor | simpl; lia].
  - apply list_elem_of_lookup in He as [i Hi].
    exists (i :: p). split; [econstructor; eauto | simpl; lia].
Qed.

Lemma route_app_inv es a : ∀ v b w,
  route es v (a ++ b) w → ∃ x, route es v a x ∧ route es x b w.
Proof.
  induction a as [|i a IH]; intros v b w Hroute; simpl in *.
  - exists v. split; [constructor | done].
  - inversion Hroute as [|? ? e ? ? Hi Hfrom Hrest]; subst.
    destruct (IH _ _ _ Hrest) as (x & Ha & Hb).
    exists x. split; [econstructor; eauto | done].
Qed.

(** A route can be cut down to one that uses no edge twice: when the
    first edge comes back later, the detour in between is dropped. *)
Lemma route_simple es p : ∀ v w,
  route es v p w → ∃ q, route es v q w ∧ length q ≤ length p ∧ NoDup q.
Proof.
  induction p as [|i p IH]; intros v w Hroute.
  - exists []. split; [done|]. split; [done | constructor].
  - inversion Hroute as [|? ? e ? ? Hi Hfrom Hrest]; subst.
    destruct (IH _ _ Hrest) as (q & Hq & Hlen & Hnodup).
    destruct (decide (i ∈ q)) as [Hin | Hout].
    + apply list_elem_of_split in Hin as (a & b & ->).
      apply route_app_inv in Hq as (x & _ & Hb).
      exists (i :: b). split; [|split].
      * inversion Hb as [|? ? e' ? ? Hi' Hfrom' Hrest']; subst.
        rewrite Hi in Hi'. injection Hi' as <-. econstructor; eauto.
      * rewrite length_app in Hlen. simpl in *. lia.
      * by apply NoDup_app in Hnodup as (_ & _ & ?).
    + exists (i :: q). split; [econstructor; eauto|].
      split; [simpl; lia | by constructor].
Qed.

Lemma traverse_follows es p : ∀ depth path v w,
  route es v p w → length p ≤ depth → NoDup p → (∀ i, i ∈ p → i ∉ path) →
  w ∈ traverse depth (imap pair es) path v.
Proof.
  induction p as [|i p IH]; intros depth path v w Hroute Hlen Hnodup Hfresh.
  - inversion Hroute; subst.
    destruct (traverse_head depth (imap pair es) path w) as [tail ->]. left.
  - inversion Hroute as [|? ? e ? ? Hi Hfrom Hrest]; subst.
    destruct depth as [|depth]; [simpl in Hlen; lia|]. simpl. right.
    apply list_elem_of_bind. exists (i, e). split.
    + rewrite bool_decide_eq_true_2 by done.
      rewrite bool_decide_eq_true_2 by (apply Hfresh; left). simpl.
      apply NoDup_cons in Hnodup as [Hi_p Hnodup].
      apply IH; [done | simpl in Hlen; lia | done |].
      intros j Hj. rewrite not_elem_of_cons. split; [by intros -> | apply Hfresh; by right].
    + by apply (elem_of_lookup_imap_2 pair).
Qed.

(** The traversal yields every vertex within [depth] edges: the rule
    that no edge repeats on a path loses none of them. *)
Lemma traverse_complete es depth v w :
  reach es depth v w → w ∈ traverse depth (imap pair es) [] v.
Proof.
  intros Hreach. apply reach_route in Hreach as (p & Hp & Hlen).
  apply route_simple in Hp as (q & Hq & Hlen' & Hnodup).
  eapply traverse_follows; [done | lia | done |]. intros i _. apply not_elem_of_nil.
Qed.

Lemma outbound_reach d start key :
  key ∈ outbound d start ↔ reach (PrototypeLinks d) max_depth start key.
Proof. split; [apply traverse_sound | apply traverse_complete]. Qed.

Lemma outbound_head d start : ∃ tail, outbound d start = start :: tail.
Proof. apply traverse_head. Qed.

Lemma candidate_Some d name v key doc code :
  candidate d name v = Some (key, doc, code) ↔
  key = v ∧ UvmObjects d !! v = Some doc ∧ methods doc !! name = Some code.
Proof.
  unfold candidate. destruct (UvmObjects d !! v) as [doc'|]; simpl.
  - destruct (methods doc' !! name) as [code'|] eqn:Hm; simpl.
    + split; [intros [= <- <- <-]; done | intros (-> & [= ->] & Hc)].
      rewrite Hm in Hc. by injection Hc as ->.
    + split; [done | intros (_ & [= ->] & Hc)]. congruence.
  - split; [done | by intros (_ & ? & _)].
Qed.

Lemma resolver_query_unfold d start name :
  resolver_query d start name = take 1 (omap (candidate d name) (outbound d start)).
Proof. reflexivity. Qed.

(** A hit is a single row: a stored object within the bound that
    declares the method, with the body it declares. *)
Lemma resolver_query_hit d start name key doc code rest :
  resolver_query d start name = (key, doc, code) :: rest →
  rest = [] ∧ UvmObjects d !! key = Some doc ∧ methods doc !! name = Some code ∧
  reach (PrototypeLinks d) max_depth start key.
Proof.
  rewrite resolver_query_unfold.
  destruct (omap (candidate d name) (outbound d start)) as [|first others] eqn:Hmatches;
    [done|].
  simpl. rewrite take_0. intros [= -> <-]. split; [done|].
  assert ((key, doc, code) ∈ omap (candidate d name) (outbound d start)) as Hin.
  { rewrite Hmatches. left. }
  apply list_elem_of_omap in Hin as (v & Hv & Hcand).
  apply candidate_Some in Hcand as (-> & ? & ?). by rewrite <- outbound_reach.
Qed.

(** Depth 0: a start object that declares the method resolves to itself. *)
Lemma resolver_query_start d start name doc code :
  UvmObjects d !! start = Some doc → methods doc !! name = Some code →
  resolver_query d start name = [(start, doc, code)].
Proof.
  intros Hdoc Hcode. rewrite resolver_query_unfold.
  destruct (outbound_head d start) as [tail ->]. simpl.
  replace (candidate d name start) with (Some (start, doc, code)).
  - simpl. by rewrite take_0.
  - symmetry. by apply candidate_Some.
Qed.

(** The query is empty exactly when nothing within the bound declares
    the method. *)
Lemma resolver_query_empty d start name :
  resolver_query d start name = [] ↔
  ∀ key, reach (PrototypeLinks d) max_depth start key → ¬ declares d key name.
Proof.
  split.
  - intros Hempty key Hreach (doc & Hdoc & code & Hcode).
    apply outbound_reach in Hreach.
    assert ((key, doc, code) ∈ omap (candidate d name) (outbound d start)) as Hin.
    { apply list_elem_of_omap. exists key. split; [done|]. by apply candidate_Some. }
    rewrite resolver_query_unfold in Hempty.
    destruct (omap (candidate d name) (outbound d start)); [by apply elem_of_nil in Hin|].
    discriminate Hempty.
  - intros Hnone.
    destruct (resolver_query d start name) as [|[[key doc] code] rest] eqn:Hq; [done|].
    apply resolver_query_hit in Hq as (_ & Hdoc & Hcode & Hreach).
    destruct (Hnone key Hreach). exists doc. split; [done | by eexists].
Qed.
End GraphProofs.

(** ** The persistence client *)
Section ClientProofs.
Import Arango Runtime DbClient Vocabulary.
Variable exec : Sandbox.interpreter.

Lemma resolve_without_db start name args kwargs w :
  db w = None →
  resolve_and_execute_method exec start name args kwargs w = (None, w).
Proof. intros Hdb. unfold resolve_and_execute_method, mbind, M_bind, get. by rewrite Hdb. Qed.

Lemma resolve_miss start name args kwargs w d :
  db w = Some d → resolver_query d start name = [] →
  resolve_and_execute_method exec start name args kwargs w = (None, w).
Proof.
  intros Hdb Hq. unfold resolve_and_execute_method, mbind, M_bind, get.
  by rewrite Hdb, Hq.
Qed.

Lemma error_message_truthy cls msg : truthy (Some (Sandbox.error_message cls msg)) = true.
Proof.
  unfold truthy, Sandbox.error_message. apply negb_true_iff, String.eqb_neq.
  by destruct cls.
Qed.

(** The ways a hit can end. *)
Lemma resolve_hit start name args kwargs w d key doc code rest :
  db w = Some d →
  resolver_query d start name = (key, doc, code) :: rest →
  let payload := payload_of name args kwargs doc code in
  resolve_and_execute_method exec start name args kwargs w =
    match Sandbox.execute_code exec payload with
    | Raises _ _ => (None, logged w [Execute payload])
    | Returns result_data =>
        let result :=
          {| output := Sandbox.output result_data;
             state_changed := Sandbox.state_changed result_data;
             source_object_id := handle key |} in
        if truthy (Sandbox.error result_data) then (None, logged w [Execute payload])
        else if Sandbox.state_changed result_data then
          (Some result,
           stored (logged (logged w [Execute payload])
                     [UpdateAttributes key (Sandbox.final_state result_data)])
                  (persisted d key doc (Sandbox.final_state result_data)))
        else (Some result, logged w [Execute payload])
    end.
Proof.
  intros Hdb Hq payload.
  pose proof (resolver_query_hit _ _ _ _ _ _ _ Hq) as (_ & Hdoc & _ & _).
  unfold resolve_and_execute_method, mbind, M_bind, get.
  rewrite Hdb, Hq. unfold post, mbind, M_bind, emit, mret, M_ret.
  subst payload. unfold payload_of.
  destruct (Sandbox.execute_code exec _) as [r|]; [|done].
  destruct (truthy (Sandbox.error r)); [done|].
  destruct (Sandbox.state_changed r) eqn:Hchanged; [|done].
  unfold update. rewrite Hdoc. reflexivity.
Qed.

(** A hit whose body raises is handed back as [None], whether the
    sandbox answers with its failure response or with none at all. *)
Lemma resolve_hit_raises start name args kwargs w d key doc code rest cls msg :
  db w = Some d →
  resolver_query d start name = (key, doc, code) :: rest →
  body_raises exec (payload_of name args kwargs doc code) cls msg →
  resolve_and_execute_method exec start name args kwargs w =
    (None, logged w [Execute (payload_of name args kwargs doc code)]).
Proof.
  intros Hdb Hq Hraises. rewrite (resolve_hit _ _ _ _ _ _ _ _ _ _ Hdb Hq). cbv zeta.
  rewrite (execute_code_raises _ _ _ _ Hraises). unfold caught.
  destruct (is_exception cls); [|done].
  unfold Sandbox.failure at 1. simpl Sandbox.error. by rewrite error_message_truthy.
Qed.

(** A hit whose body returns: the result, and the attribute patch when
    the flag is set. *)
Lemma resolve_hit_returns start name args kwargs w d key doc code rest out final :
  db w = Some d →
  resolver_query d start name = (key, doc, code) :: rest →
  body_returns exec (payload_of name args kwargs doc code) out final →
  let payload := payload_of name args kwargs doc code in
  let result :=
    {| output := out; state_changed := Sandbox._p_changed final;
       source_object_id := handle key |} in
  resolve_and_execute_method exec start name args kwargs w =
    if Sandbox._p_changed final then
      (Some result,
       stored (logged (logged w [Execute payload])
                 [UpdateAttributes key (Sandbox.attributes final)])
              (persisted d key doc (Sandbox.attributes final)))
    else (Some result, logged w [Execute payload]).
Proof.
  intros Hdb Hq Hret. cbv zeta. rewrite (resolve_hit _ _ _ _ _ _ _ _ _ _ Hdb Hq). cbv zeta.
  by rewrite (execute_code_returns _ _ _ _ Hret).
Qed.

(** C6.  Resolution starts at the start object (depth 0) and visits
    exactly the objects that at most 100 outbound prototype links lead to.
    When no object within that bound declares the method, whatever the
    shape of the graph (longer chains, cycles), the query is empty and the
    client returns [None] without having called the sandbox or written to
    the store. *)
Theorem C6_bounded_resolution start name args kwargs w d :
  db w = Some d →
  (∃ later, outbound d start = start :: later) ∧
  (∀ key, key ∈ outbound d start ↔ reach (PrototypeLinks d) 100 start key) ∧
  ((∀ key, reach (PrototypeLinks d) 100 start key → ¬ declares d key name) →
   resolver_query d start name = [] ∧
   resolve_and_execute_method exec start name args kwargs w = (None, w)).
Proof.
  intros Hdb. split; [apply outbound_head|]. split; [apply outbound_reach|].
  intros Hnone.
  assert (resolver_query d start name = []) as Hq by by apply resolver_query_empty.
  split; [done | by eapply resolve_miss].
Qed.


Lemma get_object_found key w d doc :
  db w = Some d → UvmObjects d !! key = Some doc →
  ∃ obj, get_object key w = (Some (Returns obj), w) ∧
         attribute_mapping obj = Some (VObj (attributes doc)).
Proof.
  intros Hdb Hdoc. unfold get_object, mbind, M_bind, get. rewrite Hdb, Hdoc.
  eexists. split; [reflexivity | reflexivity].
Qed.

(** Reading back after a run that set the flag: the object holds the
    final state merged into what was stored before. *)
Lemma read_back_after_change start name args kwargs w d key doc code rest out final :
  db w = Some d →
  resolver_query d start name = (key, doc, code) :: rest →
  body_returns exec (payload_of name args kwargs doc code) out final →
  Sandbox._p_changed final = true →
  let w' := (resolve_and_execute_method exec start name args kwargs w).2 in
  ∃ obj, (get_object key w').1 = Some (Returns obj) ∧
         attribute_mapping obj =
           Some (VObj (merge_objects_of (attributes doc) (Sandbox.attributes final))).
Proof.
  intros Hdb Hq Hret Hflag w'. subst w'.
  rewrite (resolve_hit_returns _ _ _ _ _ _ _ _ _ _ _ _ Hdb Hq Hret), Hflag. simpl.
  set (w' := stored _ _).
  destruct (get_object_found key w'
              (persisted d key doc (Sandbox.attributes final))
              {| attributes := merge_objects_of (attributes doc) (Sandbox.attributes final);
                 methods := methods doc |} eq_refl (lookup_insert_eq _ _ _))
    as (obj & Hget & Hattributes).
  exists obj. rewrite Hget. split; [done | exact Hattributes].
Qed.

(** What a merging patch leaves under each key. *)
Lemma merge_objects_of_lookup stored patch k :
  merge_objects_of stored patch !! k =
    match stored !! k with
    | Some old => Some match patch !! k with
                       | Some new => merge_value old new
                       | None => old
                       end
    | None => patch !! k
    end.
Proof.
  unfold merge_objects_of. simpl. rewrite lookup_union, map_lookup_imap.
  destruct (stored !! k) as [old|]; simpl; [|by rewrite (left_id None _)].
  by destruct (patch !! k).
Qed.

(** A key that the patch leaves out survives the update. *)
Lemma merge_keeps_missing_key stored patch k old :
  stored !! k = Some old → patch !! k = None →
  merge_objects_of stored patch !! k = Some old.
Proof. intros Hs Hp. by rewrite merge_objects_of_lookup, Hs, Hp. Qed.

(** The patch replaces the stored mapping when it has every stored key
    and no stored value under a shared key is itself an object. *)
Lemma merge_replaces stored patch :
  (∀ k old, stored !! k = Some old →
     is_Some (patch !! k) ∧ ∀ m, old ≠ VObj m) →
  merge_objects_of stored patch = patch.
Proof.
  intros Hcover. apply map_eq. intros k. rewrite merge_objects_of_lookup.
  destruct (stored !! k) as [old|] eqn:Hs; [|done].
  destruct (Hcover _ _ Hs) as [[new ->] Hscalar].
  f_equal. destruct old; try done. by destruct (Hscalar m).
Qed.
End ClientProofs.

(** ** The orchestrator *)
Section DispatchProofs.
Import Arango Runtime DbClient Orchestrator Vocabulary.
Variable ast_parse : string → outcome Security.ast.
Variable exec : Sandbox.interpreter.
Variable generate_code : nat → string → list value → gmap string value → string.

Abbreviation process_message := (Orchestrator.process_message ast_parse exec generate_code).
Abbreviation does_not_understand :=
  (Orchestrator.does_not_understand ast_parse exec generate_code).
Abbreviation audit := (Security.audit ast_parse).

Lemma install_method_unfold target name code w :
  install_method target name code w =
    match db w with
    | Some d =>
        match UvmObjects d !! target with
        | Some doc => (true, stored w (installed d target name code doc))
        | None => (false, w)
        end
    | None => (false, w)
    end.
Proof.
  unfold install_method, mbind, M_bind, get. destruct (db w) as [d|]; [|done].
  unfold update. by destruct (UvmObjects d !! target).
Qed.

Lemma does_not_understand_unfold reissue target name args kwargs w :
  does_not_understand_with ast_parse generate_code reissue target name args kwargs w =
    let answer := generate_code (generations w) name args kwargs in
    let w1 := answered (logged w [Generate name args kwargs]) in
    if String.eqb answer "" then (Failure "Code generation failed", w1)
    else
      match audit answer with
      | Returns true =>
          let w2 := logged w1 [InstallMethod target name answer] in
          match install_method target name answer w2 with
          | (true, w3) => reissue target name args kwargs w3
          | (false, w3) => (Failure "Method installation failed", w3)
          end
      | Returns false => (Failure "Security audit failed", w1)
      | Raises cls msg => (Raised cls msg, w1)
      end.
Proof.
  unfold does_not_understand_with, ask_engine, mbind, M_bind, emit,
    next_generation, mret, M_ret.
  simpl. destruct (String.eqb _ ""); [done|].
  destruct (audit _) as [[|]|]; [|done..].
  by destruct (install_method _ _ _ _) as [[] ?].
Qed.

Lemma process_message_unfold fuel target name args kwargs w :
  process_message (S fuel) target name args kwargs w =
    if negb (http_client w) then (Raised "RuntimeError" "HTTP client not initialized.", w)
    else
      match resolve_and_execute_method exec target name args kwargs w with
      | (None, w') => does_not_understand fuel target name args kwargs w'
      | (Some result, w') => (Success (output result) (state_changed result), w')
      end.
Proof.
  simpl. unfold mbind, M_bind, get. destruct (negb (http_client w)); [done|].
  by destruct (resolve_and_execute_method _ _ _ _ _ _) as [[result|] w'].
Qed.

(** A hit whose run reports an error is handed to the generation cycle,
    like a miss. *)
Lemma execution_error_enters_generation fuel target name args kwargs w d key doc code rest
    cls msg :
  db w = Some d → http_client w = true →
  resolver_query d target name = (key, doc, code) :: rest →
  body_raises exec (payload_of name args kwargs doc code) cls msg →
  process_message (S fuel) target name args kwargs w =
    does_not_understand fuel target name args kwargs
      (logged w [Execute (payload_of name args kwargs doc code)]).
Proof.
  intros Hdb Hhttp Hq Hraises. rewrite process_message_unfold, Hhttp. simpl.
  by rewrite (resolve_hit_raises exec _ _ _ _ _ _ _ _ _ _ _ _ Hdb Hq Hraises).
Qed.

Lemma continues_refl w : continues ast_parse w w.
Proof. exists []. by rewrite app_nil_r. Qed.

Lemma continues_trans w1 w2 w3 :
  continues ast_parse w1 w2 → continues ast_parse w2 w3 → continues ast_parse w1 w3.
Proof.
  intros (n1 & H1 & F1) (n2 & H2 & F2). exists (n1 ++ n2).
  split; [by rewrite H2, H1, app_assoc | by apply Forall_app].
Qed.

Lemma continues_logged w new :
  Forall (audited ast_parse) new → continues ast_parse w (logged w new).
Proof. intros. by exists new. Qed.

Abbreviation dispatch_safe := (Vocabulary.dispatch_safe ast_parse exec generate_code).
Abbreviation generation_safe := (Vocabulary.generation_safe ast_parse exec generate_code).

Lemma generation_safe_of_dispatch fuel : dispatch_safe fuel → generation_safe fuel.
Proof.
  intros Hdispatch target name args kwargs w.
  unfold Orchestrator.does_not_understand. rewrite does_not_understand_unfold. cbv zeta.
  set (answer := generate_code _ _ _ _).
  set (w1 := answered (logged w [Generate name args kwargs])).
  assert (continues ast_parse w w1) as Hw1.
  { exists [Generate name args kwargs]. split; [done | by repeat constructor]. }
  destruct (String.eqb answer ""); [done|].
  destruct (audit answer) as [[|]|] eqn:Haudit; [|done..].
  set (w2 := logged w1 [InstallMethod target name answer]).
  assert (continues ast_parse w w2) as Hw2.
  { eapply continues_trans; [exact Hw1|]. apply continues_logged. by repeat constructor. }
  rewrite install_method_unfold.
  destruct (db w2) as [d|] eqn:Hdb; [|done].
  destruct (UvmObjects d !! target) as [doc|] eqn:Hdoc; [|done].
  eapply continues_trans; [exact Hw2|].
  set (w3 := stored w2 _).
  eapply (continues_trans _ w3); [exists []; by rewrite app_nil_r|].
  apply Hdispatch. eexists _, _, answer. split; [reflexivity|]. simpl.
  split; [apply lookup_insert_eq|]. simpl. split; [|done].
  apply lookup_union_Some_l, lookup_singleton_eq.
Qed.

Lemma dispatch_safe_step fuel : generation_safe fuel → dispatch_safe (S fuel).
Proof.
  intros Hgen target name args kwargs w (d & doc & code & Hdb & Hdoc & Hcode & Haudit).
  rewrite process_message_unfold.
  destruct (negb (http_client w)); [apply continues_refl|].
  pose proof (resolver_query_start _ _ _ _ _ Hdoc Hcode) as Hq.
  set (payload := payload_of name args kwargs doc code).
  assert (continues ast_parse w (logged w [Execute payload])) as Hrun.
  { apply continues_logged. by repeat constructor. }
  destruct (body_returns_or_raises exec payload)
    as [(out & final & Hret) | (cls & msg & Hraises)].
  - rewrite (resolve_hit_returns exec _ _ _ _ _ _ _ _ _ _ _ _ Hdb Hq Hret).
    destruct (Sandbox._p_changed final); [|exact Hrun].
    simpl. eexists [Execute payload; UpdateAttributes target _].
    split; [simpl; by rewrite <- app_assoc | by repeat constructor].
  - rewrite (resolve_hit_raises exec _ _ _ _ _ _ _ _ _ _ _ _ Hdb Hq Hraises).
    eapply continues_trans; [exact Hrun | apply Hgen].
Qed.

Lemma dispatch_safe_always fuel : dispatch_safe fuel.
Proof.
  induction fuel as [|fuel IH].
  - intros target name args kwargs w _. apply continues_refl.
  - by apply dispatch_safe_step, generation_safe_of_dispatch.
Qed.

Lemma generation_safe_always fuel : generation_safe fuel.
Proof. apply generation_safe_of_dispatch, dispatch_safe_always. Qed.

Lemma audit_rejection fuel target name args kwargs w :
  generate_code (generations w) name args kwargs ≠ "" →
  audit (generate_code (generations w) name args kwargs) = Returns false →
  does_not_understand fuel target name args kwargs w =
    (Failure "Security audit failed", answered (logged w [Generate name args kwargs])).
Proof.
  intros Hanswer Haudit. unfold Orchestrator.does_not_understand.
  rewrite does_not_understand_unfold. cbv zeta. rewrite Haudit.
  by destruct (String.eqb_spec (generate_code (generations w) name args kwargs) "").
Qed.

(** C2.  When the engine's answer fails the audit, [does_not_understand]
    ends at once, whatever room the stack has, with the failure "Security
    audit failed"; the world it leaves differs from the one it found by
    the logged request to the engine and the engine's counter only, so
    [install_method] was not called, nothing was posted to the sandbox
    and the store is as before.  And on every path of
    [does_not_understand], re-issued dispatches included and however far
    the run is followed, each body handed to [install_method] or posted
    to the sandbox passes the audit. *)
Theorem C2_only_audited_bodies target name args kwargs w :
  (generate_code (generations w) name args kwargs ≠ "" →
   audit (generate_code (generations w) name args kwargs) = Returns false →
   ∀ fuel,
     does_not_understand fuel target name args kwargs w =
       (Failure "Security audit failed",
        answered (logged w [Generate name args kwargs]))) ∧
  (∀ fuel, ∃ new,
     trace (does_not_understand fuel target name args kwargs w).2 = trace w ++ new ∧
     Forall (audited ast_parse) new).
Proof.
  split.
  - intros Hanswer Haudit fuel. by apply audit_rejection.
  - intros fuel. apply generation_safe_always.
Qed.
End DispatchProofs.

(** ** Scenarios on the demo runtime *)
Section ScenarioProofs.
Import Arango Runtime DbClient Orchestrator Vocabulary Scenario.

Lemma title_raises doc :
  attributes doc !! "title" = None →
  body_raises Demo.exec (payload_of "greet" architect ∅ doc Demo.title_code)
    "KeyError" "'title'".
Proof.
  intros Hmissing. eapply raises_in_call; [reflexivity | reflexivity |].
  unfold Demo.title. simpl. by rewrite Hmissing.
Qed.

(** One round of the loop: the stored body raises, the error is taken
    for a miss, the engine is asked again and its answer, the same body,
    is installed again. *)
Lemma stuck_step fuel w :
  stuck w →
  ∃ w', stuck w' ∧ requests w' = S (requests w) ∧
        dispatch_greet Demo.title_code (S fuel) w = dispatch_greet Demo.title_code fuel w'.
Proof.
  intros (Hhttp & d & doc & Hdb & Hdoc & Hcode & Hmissing).
  eexists. split; [|split]; cycle 2.
  - unfold dispatch_greet, dispatch.
    rewrite (execution_error_enters_generation Demo.ast_parse Demo.exec _ fuel
               _ _ _ _ w d _ doc _ [] _ _ Hdb Hhttp
               (resolver_query_start _ _ _ _ _ Hdoc Hcode)
               (title_raises doc Hmissing)).
    unfold Orchestrator.does_not_understand. rewrite does_not_understand_unfold. cbv zeta.
    unfold Demo.engine.
    change (String.eqb Demo.title_code "") with false.
    change (Security.audit Demo.ast_parse Demo.title_code) with (Returns true : outcome bool).
    cbv iota.
    rewrite install_method_unfold. simpl db. rewrite Hdb, Hdoc. reflexivity.
  - split; [done|]. eexists _, _. split; [reflexivity|]. simpl.
    split; [apply lookup_insert_eq|]. simpl. split; [|done].
    apply lookup_union_Some_l, lookup_singleton_eq.
  - unfold requests. simpl. rewrite !filter_app, !length_app. simpl. lia.
Qed.

Lemma stuck_loops fuel : ∀ w,
  stuck w →
  (dispatch_greet Demo.title_code fuel w).1 = RecursionError ∧
  requests (dispatch_greet Demo.title_code fuel w).2 = requests w + fuel.
Proof.
  induction fuel as [|fuel IH]; intros w Hstuck.
  - simpl. split; [done | lia].
  - destruct (stuck_step fuel w Hstuck) as (w' & Hstuck' & Hcount & ->).
    destruct (IH w' Hstuck') as [Hreply Hrequests].
    split; [done|]. rewrite Hrequests, Hcount. lia.
Qed.

(** The first round, from the store of [genesis.py]: a genuine miss. *)
Lemma genesis_gets_stuck fuel :
  ∃ w', stuck w' ∧ requests w' = 1 ∧
        dispatch_greet Demo.title_code (S fuel) (Demo.running Demo.genesis) =
        dispatch_greet Demo.title_code fuel w'.
Proof.
  eexists. split; [|split]; cycle 2.
  - unfold dispatch_greet, dispatch. rewrite process_message_unfold. simpl negb. cbv iota.
    rewrite (resolve_miss Demo.exec _ _ _ _ (Demo.running Demo.genesis) Demo.genesis
               eq_refl) by by vm_compute.
    unfold Orchestrator.does_not_understand. rewrite does_not_understand_unfold. cbv zeta.
    unfold Demo.engine.
    change (String.eqb Demo.title_code "") with false.
    change (Security.audit Demo.ast_parse Demo.title_code) with (Returns true : outcome bool).
    cbv iota.
    rewrite install_method_unfold. reflexivity.
  - split; [done|]. eexists _, _. split; [reflexivity|]. by vm_compute.
  - by vm_compute.
Qed.

(** C1 on the failing input.  [system] declares [boom], whose body
    raises [ValueError] in the sandbox.  The dispatch does not end with
    that fault: the engine is asked for an implementation of [boom], its
    answer is installed over the declared body and run, and the caller
    receives the output of the generated body. *)
Theorem C1_fault_enters_generation fuel :
  Sandbox.error <$> Sandbox.execute_code Demo.exec (Demo.payload Demo.boom_code "boom" ∅)
    = Returns (Some "ValueError: boom") ∧
  (dispatch Demo.calm_code (S (S fuel)) "system" "boom" [] (Demo.running Demo.faulty)).1
    = Success (VStr "ok") false ∧
  trace (dispatch Demo.calm_code (S (S fuel)) "system" "boom" []
           (Demo.running Demo.faulty)).2
    = [Execute (Demo.payload Demo.boom_code "boom" ∅);
       Generate "boom" [] ∅;
       InstallMethod "system" "boom" Demo.calm_code;
       Execute (Demo.payload Demo.calm_code "boom" ∅)].
Proof. split; [|split]; vm_compute; reflexivity. Qed.

(** C4 on the failing input.  [system] has no [greet]; the engine's
    answer passes the audit and is installed, and the re-issued dispatch
    resolves it at depth 0, but the body raises [KeyError].  The error
    is taken for a miss, so the same pair enters the generation cycle
    again, and again: whatever room the stack has for nested dispatches,
    the dispatch uses it all, asks the engine once per nested dispatch
    and ends only with the interpreter's [RecursionError]. *)
Theorem C4_generation_repeats fuel :
  (dispatch_greet Demo.title_code (S fuel) (Demo.running Demo.genesis)).1
    = RecursionError ∧
  requests (dispatch_greet Demo.title_code (S fuel) (Demo.running Demo.genesis)).2
    = S fuel.
Proof.
  destruct (genesis_gets_stuck fuel) as (w' & Hstuck & Hcount & ->).
  destruct (stuck_loops fuel w' Hstuck) as [Hreply Hrequests].
  split; [done|]. rewrite Hrequests, Hcount. lia.
Qed.

(** The same scenario with a body that runs: one request, one
    installation, one re-issued dispatch. *)
Example greet_is_learned fuel :
  dispatch_greet Demo.greet_code (S (S fuel)) (Demo.running Demo.genesis) =
    (Success (VStr "Hello, Architect") false,
     {| db := Some (installed Demo.genesis "system" "greet" Demo.greet_code Demo.blank);
        http_client := true;
        generations := 1;
        trace := [Generate "greet" architect ∅;
                  InstallMethod "system" "greet" Demo.greet_code;
                  Execute {| Sandbox.code := Demo.greet_code;
                             Sandbox.method_name := "greet";
                             Sandbox.object_state := ∅;
                             Sandbox.args := architect;
                             Sandbox.kwargs := ∅ |}] |}).
Proof. vm_compute. reflexivity. Qed.

(** C8 on the failing input.  [box] stores [{a: 1, b: 2}]; [drop]
    removes [b] and commits.  The sandbox reports the final state
    [{a: 1}], the write succeeds, and the object read back still has
    [b]: the update merged the patch into the stored mapping. *)
Theorem C8_removed_key_survives :
  let result_data :=
    Sandbox.execute_code Demo.exec
      (Demo.payload Demo.drop_code "drop" {[ "a" := VInt 1; "b" := VInt 2 ]}) in
  let run := dispatch "" 1 "box" "drop" [] (Demo.running Demo.box) in
  Sandbox.state_changed <$> result_data = Returns true ∧
  Sandbox.final_state <$> result_data = Returns {[ "a" := VInt 1 ]} ∧
  run.1 = Success VNull true ∧
  ∃ obj, (get_object "box" run.2).1 = Some (Returns obj) ∧
         attribute_mapping obj = Some (VObj {[ "a" := VInt 1; "b" := VInt 2 ]}).
Proof.
  cbv zeta. split; [|split; [|split]]; [by vm_compute ..|].
  eexists. split; vm_compute; reflexivity.
Qed.
End ScenarioProofs.

(** ** Instances on the demo stores *)

Lemma ring_declares_nothing key name : ¬ Vocabulary.declares Demo.ring key name.
Proof.
  intros (doc & Hdoc & code & Hcode). simpl in Hdoc.
  apply lookup_insert_Some in Hdoc as [[_ <-] | [_ Hdoc]]; [done|].
  apply lookup_singleton_Some in Hdoc as [_ <-]. done.
Qed.

(** On the two-object cycle the traversal stops when the only unused edge
    has been taken. *)
Example ring_traversal : Arango.outbound Demo.ring "a" = ["a"; "b"; "a"].
Proof. reflexivity. Qed.

(** C6 on the two-object cycle: [greet] is declared nowhere, the query is
    empty and the world is untouched. *)
Lemma C6_bounded_resolution_witness :
  Arango.resolver_query Demo.ring "a" "greet" = [] ∧
  DbClient.resolve_and_execute_method Demo.exec "a" "greet" [] ∅ (Demo.running Demo.ring)
    = (None, Demo.running Demo.ring).
Proof.
  apply (C6_bounded_resolution Demo.exec "a" "greet" [] ∅ (Demo.running Demo.ring) Demo.ring).
  - reflexivity.
  - intros key _. apply ring_declares_nothing.
Defined.

(** On a chain of 120 links, a method declared 100 links away is found
    and one declared 101 links away is not. *)
Example chain_hit_at_bound :
  (λ row, row.1.1) <$> Arango.resolver_query (Demo.chain 120 100) "o0" "greet" = ["o100"].
Proof. vm_compute. reflexivity. Qed.

Example chain_miss_past_bound :
  Arango.resolver_query (Demo.chain 120 101) "o0" "greet" = [].
Proof. vm_compute. reflexivity. Qed.

Lemma family_resolves_on_B :
  Arango.resolver_query Demo.family "A" "set_n" =
    [("B", Demo.declaring {[ "n" := VInt 0 ]} "set_n" Demo.set_n_code, Demo.set_n_code)].
Proof. vm_compute. reflexivity. Qed.

Lemma set_n_returns :
  Vocabulary.body_returns Demo.exec
    (Vocabulary.payload_of "set_n" [VInt 5] ∅
       (Demo.declaring {[ "n" := VInt 0 ]} "set_n" Demo.set_n_code) Demo.set_n_code)
    VNull {| Sandbox.attributes := {[ "n" := VInt 5 ]}; Sandbox._p_changed := true |}.
Proof. by eapply Vocabulary.returns_from_call. Qed.







(** C2 on the store of [genesis.py]: an answer that calls [open] is
    rejected with nothing but the request logged; with an answer that
    passes, every body in the log is audited. *)
Lemma C2_only_audited_bodies_witness :
  (∀ fuel,
     Orchestrator.does_not_understand Demo.ast_parse Demo.exec (Demo.engine Demo.open_code)
       fuel "system" "greet" Scenario.architect ∅ (Demo.running Demo.genesis) =
     (Orchestrator.Failure "Security audit failed",
      {| Runtime.db := Some Demo.genesis; Runtime.http_client := true;
         Runtime.generations := 1;
         Runtime.trace := [Runtime.Generate "greet" Scenario.architect ∅] |})) ∧
  (∃ new,
     Runtime.trace
       (Orchestrator.does_not_understand Demo.ast_parse Demo.exec
          (Demo.engine Demo.greet_code)
          3 "system" "greet" Scenario.architect ∅ (Demo.running Demo.genesis)).2 = new ∧
     Forall (Vocabulary.audited Demo.ast_parse) new).
Proof.
  split.
  - apply (proj1 (C2_only_audited_bodies Demo.ast_parse Demo.exec (Demo.engine Demo.open_code)
                    "system" "greet" Scenario.architect ∅ (Demo.running Demo.genesis))).
    + discriminate.
    + reflexivity.
  - apply (proj2 (C2_only_audited_bodies Demo.ast_parse Demo.exec (Demo.engine Demo.greet_code)
                    "system" "greet" Scenario.architect ∅ (Demo.running Demo.genesis)) 3).
Defined.

(* ===================================================================== *)
(** * Part III: further properties of the code *)
(* ===================================================================== *)

(** ** Installing a method *)
Section InstallProofs.
Import Arango Runtime DbClient Vocabulary.

Lemma install_method_fails target name code w :
  (install_method target name code w).1 = false ↔
  (db w = None ∨ ∃ d, db w = Some d ∧ UvmObjects d !! target = None).
Proof.
  rewrite install_method_unfold. destruct (db w) as [d|] eqn:Hdb.
  - destruct (UvmObjects d !! target) as [doc|] eqn:Hdoc; simpl.
    + split; [done|]. intros [? | (d' & [= <-] & Hnone)]; congruence.
    + split; [|done]. intros _. right. by exists d.
  - split; [by left | done].
Qed.

(** X1.  [install_method] reports failure exactly when the client has no
    database or the store has no document under the target key, and a
    failed installation leaves store and log as they were. *)
Theorem install_method_failure_is_silent target name code w :
  ((install_method target name code w).1 = false ↔
     (db w = None ∨ ∃ d, db w = Some d ∧ UvmObjects d !! target = None)) ∧
  ((install_method target name code w).1 = false →
     (install_method target name code w).2 = w).
Proof.
  split; [apply install_method_fails|].
  rewrite install_method_unfold. destruct (db w) as [d|]; [|done].
  by destruct (UvmObjects d !! target).
Qed.

(** X2.  After a successful installation the method resolves on the
    target itself, with the installed text, whatever the target held
    under that name before and whatever its prototypes declare; the
    target's attributes and other methods, every other document, the
    links and the log are as before. *)
Theorem install_then_resolve target name code w :
  (install_method target name code w).1 = true →
  ∃ d d' doc,
    db w = Some d ∧ UvmObjects d !! target = Some doc ∧
    db (install_method target name code w).2 = Some d' ∧
    resolver_query d' target name =
      [(target, {| attributes := attributes doc;
                   methods := <[name := code]> (methods doc) |}, code)] ∧
    PrototypeLinks d' = PrototypeLinks d ∧
    (∀ other, other ≠ target → UvmObjects d' !! other = UvmObjects d !! other) ∧
    trace (install_method target name code w).2 = trace w.
Proof.
  rewrite install_method_unfold. destruct (db w) as [d|] eqn:Hdb; [|done].
  destruct (UvmObjects d !! target) as [doc|] eqn:Hdoc; [|done]. intros _.
  exists d, (installed d target name code doc), doc. simpl.
  split; [done|]. split; [done|]. split; [done|].
  unfold installed. rewrite <- insert_union_singleton_l.
  split; [|split; [done|split; [|done]]].
  - apply resolver_query_start; simpl; [apply lookup_insert_eq|apply lookup_insert_eq].
  - intros other Hother. by apply lookup_insert_ne.
Qed.
End InstallProofs.

(** X2 on [A → B → nil], where [B] declares [set_n]: once [set_n] is
    installed on [A], a message to [A] resolves on [A]. *)
Lemma install_then_resolve_witness :
  ∃ d', Runtime.db (DbClient.install_method "A" "set_n" Demo.calm_code
                      (Demo.running Demo.family)).2 = Some d' ∧
        (λ row, (row.1.1, row.2)) <$> Arango.resolver_query d' "A" "set_n"
          = [("A", Demo.calm_code)].
Proof.
  destruct (install_then_resolve "A" "set_n" Demo.calm_code (Demo.running Demo.family)
              eq_refl) as (d & d' & doc & _ & _ & Hdb & Hquery & _).
  exists d'. split; [exact Hdb|]. rewrite Hquery. reflexivity.
Defined.

(** ** The prototype object: reads, assignment runs, documents *)
Section DocumentProofs.
Import Uvm UvmDocuments Arango Runtime DbClient Vocabulary.

Lemma getattribute_own self name v :
  name ∉ data_descriptors → __dict__ self !! name = Some v →
  getattribute self name = Returns (Val v).
Proof.
  intros Hname Hv. unfold getattribute.
  by rewrite bool_decide_eq_false_2, Hv.
Qed.

Lemma not_descriptor name :
  bool_decide (name ∈ data_descriptors) = false → name ∉ data_descriptors.
Proof. by intros H%bool_decide_eq_false. Qed.

Lemma to_doc_of_loaded doc : from_doc doc ≫= to_doc = Returns (serialised doc).
Proof.
  unfold from_doc, serialised. rewrite init_returns.
  change (Returns ?x ≫= to_doc) with (to_doc x).
  unfold to_doc.
  rewrite (getattribute_own _ "attributes" (VObj (default ∅ (doc_attributes doc))))
    by (by apply not_descriptor || by simplify_map_eq).
  rewrite (getattribute_own _ "methods" (VObj (VStr <$> default ∅ (doc_methods doc))))
    by (by apply not_descriptor || by simplify_map_eq).
  rewrite (getattribute_own _ "_key" (optional_str (doc_key doc)))
    by (by apply not_descriptor || by simplify_map_eq).
  simpl. destruct (doc_key doc) as [key|]; simpl; [|done].
  by destruct (String.eqb key "").
Qed.

(** X13.  Loading a document with [from_doc] and serialising the object
    with [to_doc] gives back the document's attributes and methods, an
    absent field as the empty mapping, and its key unless that is absent
    or empty; the handle [_id] is not written. *)
Theorem to_doc_from_doc doc : from_doc doc ≫= to_doc = Returns (serialised doc).
Proof. apply to_doc_of_loaded. Qed.

(** X3.  [get_object] never changes the world.  It returns nothing
    exactly when there is no database or no document under the key;
    otherwise it returns an object with the change flag unset whose
    [to_doc] is the stored document. *)
Theorem get_object_round_trip key w :
  (get_object key w).2 = w ∧
  match (get_object key w).1 with
  | None => db w = None ∨ ∃ d, db w = Some d ∧ UvmObjects d !! key = None
  | Some loaded =>
      ∃ d doc self,
        db w = Some d ∧ UvmObjects d !! key = Some doc ∧
        loaded = Returns self ∧
        changed_flag self = Some (VBool false) ∧
        to_doc self = Returns (stored_fields key doc)
  end.
Proof.
  unfold get_object, mbind, M_bind, get.
  destruct (db w) as [d|] eqn:Hdb; simpl; [|split; [done | by left]].
  destruct (UvmObjects d !! key) as [doc|] eqn:Hdoc; simpl.
  - split; [done|]. unfold from_doc. rewrite init_returns.
    eexists d, doc, _. split_and!; try done.
    set (record := {| doc_id := _ |}).
    pose proof (to_doc_of_loaded record) as Hround.
    unfold from_doc in Hround. rewrite init_returns in Hround.
    exact Hround.
  - split; [done|]. right. by exists d.
Qed.

Lemma getattr_found self name a m :
  __dict__ self !! "attributes" = Some (VObj a) →
  __dict__ self !! "methods" = Some (VObj m) →
  __getattr__ self name =
    match a !! name with
    | Some v => Returns (Val v)
    | None =>
        if bool_decide (is_Some (m !! name)) then Returns MethodPlaceholder
        else Raises "AttributeError" name
    end.
Proof.
  intros Ha Hm. unfold __getattr__, read_attributes, read_methods.
  rewrite Ha, Hm. simpl.
  destruct (a !! name) as [v|] eqn:Hv.
  - by rewrite bool_decide_eq_true_2.
  - rewrite bool_decide_eq_false_2; [done|]. by intros [? ?].
Qed.

(** X14.  On an object whose [attributes] and [methods] are mappings, a
    name that is neither in the instance dictionary nor defined by the
    class reads as the attribute of that name if there is one, also when
    a method has the same name; as the method placeholder if only a
    method has the name; and raises [AttributeError] otherwise. *)
Theorem attribute_shadows_method self name a m :
  __dict__ self !! "attributes" = Some (VObj a) →
  __dict__ self !! "methods" = Some (VObj m) →
  __dict__ self !! name = None →
  name ∉ data_descriptors ++ class_namespace ++ object_namespace →
  getattribute self name =
    match a !! name, m !! name with
    | Some v, _ => Returns (Val v)
    | None, Some _ => Returns MethodPlaceholder
    | None, None => Raises "AttributeError" name
    end.
Proof.
  intros Ha Hm Hnone Hname. rewrite elem_of_app in Hname.
  unfold getattribute.
  rewrite bool_decide_eq_false_2 by tauto. rewrite Hnone.
  rewrite bool_decide_eq_false_2 by tauto.
  rewrite (getattr_found _ _ _ _ Ha Hm).
  destruct (a !! name); [done|].
  destruct (m !! name) eqn:?.
  - by rewrite bool_decide_eq_true_2.
  - rewrite bool_decide_eq_false_2; [done|]. by intros [? ?].
Qed.

Lemma read_methods_frame self name v a :
  name ≠ "methods" →
  __dict__ self !! "attributes" = Some (VObj a) →
  read_methods {| __dict__ :=
      <["_p_changed" := VBool true]>
        (<["attributes" := VObj (<[name := v]> a)]> (__dict__ self)) |}
  = read_methods self.
Proof.
  intros Hname Ha. unfold read_methods, read_attributes. simpl.
  rewrite !lookup_insert_ne by done. rewrite lookup_insert_eq, Ha.
  destruct (__dict__ self !! "methods"); [done|]. simpl.
  by rewrite lookup_insert_ne.
Qed.

(** X15.  Assigning to a public name changes what that name reads as and
    nothing else: on a well-formed object every other name reads as
    before, apart from [_p_changed], [attributes] and [__dict__], which
    show the assignment. *)
Theorem assignment_leaves_other_names self name v self' other :
  well_formed self → public name →
  __setattr__ self name v = Returns self' →
  other ≠ name → other ∉ ["_p_changed"; "attributes"; "__dict__"] →
  getattribute self' other = getattribute self other.
Proof.
  intros [[a Ha] Hfree] Hpublic Hset Hother Hreserved.
  rewrite (setattr_public _ _ _ _ Hpublic Ha) in Hset. injection Hset as <-.
  rewrite !elem_of_cons, elem_of_nil in Hreserved.
  destruct Hpublic as (Hprefix & Hattr & Hmeth).
  unfold getattribute.
  destruct (bool_decide (other ∈ data_descriptors)) eqn:Hdesc.
  - destruct (String.eqb_spec other "__dict__"); [tauto|done].
  - simpl __dict__. rewrite !lookup_insert_ne by (intros <-; tauto).
    destruct (__dict__ self !! other); [done|].
    case_bool_decide; [done|].
    unfold __getattr__.
    rewrite read_methods_frame by done.
    unfold read_attributes. simpl.
    rewrite lookup_insert_ne by done. rewrite lookup_insert_eq, Ha. simpl.
    by rewrite !lookup_insert_ne by done.
Qed.

Lemma assign_public self updates a :
  well_formed self →
  __dict__ self !! "attributes" = Some (VObj a) →
  Forall (λ u, public u.1) updates →
  ∃ self',
    assign self updates = Returns self' ∧ well_formed self' ∧
    attribute_mapping self' =
      Some (VObj (foldl (λ a u, <[u.1 := u.2]> a) a updates)) ∧
    changed_flag self' =
      match updates with [] => changed_flag self | _ => Some (VBool true) end ∧
    ∀ other, other ∉ ["_p_changed"; "attributes"] →
      __dict__ self' !! other = __dict__ self !! other.
Proof.
  intros Hwf Ha Hall. revert self a Hwf Ha.
  induction Hall as [|[name v] updates Hpublic Hall IH]; intros self a Hwf Ha.
  - exists self. by split_and!.
  - simpl. rewrite (setattr_public _ _ _ _ Hpublic Ha). simpl.
    set (self1 := {| __dict__ := _ |}).
    assert (__setattr__ self name v = Returns self1) as Hset
      by by apply setattr_public.
    assert (well_formed self1) as Hwf1.
    { eapply setattr_well_formed; [exact Hwf | exact Hset | |].
      - intros ->. by destruct Hpublic as [Hp _].
      - intros ->. by destruct Hpublic as (_ & ? & _). }
    assert (__dict__ self1 !! "attributes" = Some (VObj (<[name := v]> a))) as Ha1.
    { simpl. by rewrite lookup_insert_ne, lookup_insert_eq. }
    destruct (IH self1 _ Hwf1 Ha1) as (self' & Hrun & Hwf' & Hmap & Hflag & Hrest).
    exists self'. split_and!; try done.
    + rewrite Hflag. destruct updates; [|done].
      unfold changed_flag. simpl. by rewrite lookup_insert_eq.
    + intros other Hother. rewrite (Hrest other Hother). simpl.
      rewrite !elem_of_cons, elem_of_nil in Hother.
      rewrite !lookup_insert_ne; [done|intros <-; tauto|intros <-; tauto].
Qed.

(** X16.  On an object loaded from a document, a run of assignments to
    public names never raises; the attribute mapping ends as the
    document's attributes with the assigned values written in order, a
    later value for a name replacing an earlier one; the change flag is
    set exactly when the run is not empty; and the rest of the instance
    dictionary (handle, key, methods) is as loaded. *)
Theorem assignments_accumulate doc self updates :
  from_doc doc = Returns self →
  Forall (λ u, public u.1) updates →
  ∃ self',
    assign self updates = Returns self' ∧
    attribute_mapping self' =
      Some (VObj (foldl (λ a u, <[u.1 := u.2]> a)
                        (default ∅ (doc_attributes doc)) updates)) ∧
    changed_flag self' = Some (VBool (bool_decide (updates ≠ []))) ∧
    ∀ other, other ∉ ["_p_changed"; "attributes"] →
      __dict__ self' !! other = __dict__ self !! other.
Proof.
  intros Hdoc Hall.
  assert (well_formed self) as Hwf by (eapply init_well_formed; exact Hdoc).
  unfold from_doc in Hdoc. rewrite init_returns in Hdoc. injection Hdoc as <-.
  edestruct (assign_public _ updates (default ∅ (doc_attributes doc)) Hwf)
    as (self' & Hrun & _ & Hmap & Hflag & Hrest); [|exact Hall|].
  { simpl. by rewrite lookup_insert_ne, lookup_insert_ne, lookup_insert_eq. }
  exists self'. split_and!; try done.
  rewrite Hflag. by destruct updates.
Qed.
End DocumentProofs.

Lemma painted_is_loaded : Uvm.from_doc UvmDocuments.painted = Returns UvmDocuments.painted_object.
Proof. vm_compute. reflexivity. Qed.

Lemma painted_well_formed : Vocabulary.well_formed UvmDocuments.painted_object.
Proof. eapply init_well_formed, painted_is_loaded. Qed.

Lemma not_in_names (name : string) (names : list string) :
  bool_decide (name ∈ names) = false → name ∉ names.
Proof. by intros H%bool_decide_eq_false. Qed.

Lemma not_of_class (name : string) :
  bool_decide (name ∈ Uvm.data_descriptors ++ Uvm.class_namespace ++ Uvm.object_namespace)
    = false →
  name ∉ Uvm.data_descriptors ++ Uvm.class_namespace ++ Uvm.object_namespace.
Proof. apply not_in_names. Qed.

(** X14 on an object with an attribute [color] and methods [color] and
    [greet]: [color] reads as the attribute, [greet] as the placeholder,
    [size] raises. *)
Lemma attribute_shadows_method_witness :
  Uvm.getattribute UvmDocuments.painted_object "color" = Returns (Uvm.Val (VStr "red")) ∧
  Uvm.getattribute UvmDocuments.painted_object "greet" = Returns Uvm.MethodPlaceholder ∧
  Uvm.getattribute UvmDocuments.painted_object "size" = Raises "AttributeError" "size".
Proof.
  split; [|split].
  - exact (attribute_shadows_method UvmDocuments.painted_object "color"
             {[ "color" := VStr "red" ]}
             {[ "color" := VStr Demo.calm_code; "greet" := VStr Demo.greet_code ]}
             eq_refl eq_refl eq_refl (not_of_class "color" eq_refl)).
  - exact (attribute_shadows_method UvmDocuments.painted_object "greet"
             {[ "color" := VStr "red" ]}
             {[ "color" := VStr Demo.calm_code; "greet" := VStr Demo.greet_code ]}
             eq_refl eq_refl eq_refl (not_of_class "greet" eq_refl)).
  - exact (attribute_shadows_method UvmDocuments.painted_object "size"
             {[ "color" := VStr "red" ]}
             {[ "color" := VStr Demo.calm_code; "greet" := VStr Demo.greet_code ]}
             eq_refl eq_refl eq_refl (not_of_class "size" eq_refl)).
Defined.

Lemma public_size : Vocabulary.public "size".
Proof. by repeat split. Qed.

(** X15 on the same object: after [obj.size = 3], [color] still reads
    [red] and [greet] is still the placeholder. *)
Lemma assignment_leaves_other_names_witness :
  ∃ self',
    Uvm.__setattr__ UvmDocuments.painted_object "size" (VInt 3) = Returns self' ∧
    Uvm.getattribute self' "color" = Returns (Uvm.Val (VStr "red")) ∧
    Uvm.getattribute self' "greet" = Returns Uvm.MethodPlaceholder.
Proof.
  eexists. split; [reflexivity|]. split.
  - rewrite (assignment_leaves_other_names UvmDocuments.painted_object "size" (VInt 3)
               _ "color" painted_well_formed public_size eq_refl);
      [reflexivity | discriminate | by apply not_in_names].
  - rewrite (assignment_leaves_other_names UvmDocuments.painted_object "size" (VInt 3)
               _ "greet" painted_well_formed public_size eq_refl);
      [reflexivity | discriminate | by apply not_in_names].
Defined.

(** X16 on the same object: [obj.x = 1; obj.y = 2; obj.x = 3]. *)
Lemma assignments_accumulate_witness :
  ∃ self',
    UvmDocuments.assign UvmDocuments.painted_object
      [("x", VInt 1); ("y", VInt 2); ("x", VInt 3)] = Returns self' ∧
    Vocabulary.attribute_mapping self' =
      Some (VObj {[ "color" := VStr "red"; "x" := VInt 3; "y" := VInt 2 ]}) ∧
    Vocabulary.changed_flag self' = Some (VBool true).
Proof.
  destruct (assignments_accumulate UvmDocuments.painted UvmDocuments.painted_object
              [("x", VInt 1); ("y", VInt 2); ("x", VInt 3)] painted_is_loaded)
    as (self' & Hrun & Hmap & Hflag & _).
  - repeat constructor; by repeat split.
  - exists self'. split; [exact Hrun|]. split; [|exact Hflag].
    rewrite Hmap. vm_compute. reflexivity.
Defined.

(** ** The audit, by parts *)
Section AuditParts.
Import Security Vocabulary.

Lemma audit_loop_true nodes :
  audit_loop nodes = true ↔ ∀ n, n ∈ nodes → flagged n = false.
Proof.
  rewrite <- not_false_iff_true, audit_loop_false. split.
  - intros Hnone n Hn. destruct (flagged n) eqn:Hf; [|done].
    destruct Hnone. exists n. by rewrite <- flagged_forbidden.
  - intros Hall (n & Hn & Hforb). apply flagged_forbidden in Hforb.
    rewrite (Hall n Hn) in Hforb. done.
Qed.

(** X17.  The audit loop passes a tree exactly when none of the three
    tests fires on its root and the loop passes each child tree on its
    own: the breadth-first order of the walk does not matter to the
    verdict, and a construct rejected on its own is rejected wherever it
    is nested. *)
Theorem audit_by_parts cls ident children :
  audit_loop (walk (Node cls ident children)) =
    negb (flagged (Node cls ident children)) &&
    forallb (λ child, audit_loop (walk child)) children.
Proof.
  apply eq_true_iff_eq.
  rewrite andb_true_iff, negb_true_iff, forallb_forall, audit_loop_true.
  setoid_rewrite walk_elem. split.
  - intros Hall. split; [apply Hall; constructor|].
    intros child Hchild%list_elem_of_In. apply audit_loop_true.
    intros n Hn%walk_elem. apply Hall. by econstructor.
  - intros [Hroot Hchildren] n [-> | (child & Hin & Hsub)]%subnode_inv; [done|].
    apply list_elem_of_In, Hchildren in Hin.
    rewrite audit_loop_true in Hin. apply Hin. by apply walk_elem.
Qed.
End AuditParts.

(** ** What resolution and dispatch leave alone *)
Section FrameProofs.
Import Arango Runtime DbClient Vocabulary Frame.

(** A bind over a list in which one position only contributes. *)
Lemma bind_single {A B} (f : A → list B) (l : list A) i x :
  l !! i = Some x →
  (∀ j y, l !! j = Some y → j ≠ i → f y = []) →
  l ≫= f = f x.
Proof.
  revert i. induction l as [|a l IH]; intros i Hi Hother; [done|].
  rewrite bind_cons. destruct i as [|i]; simpl in Hi.
  - injection Hi as ->.
    assert (l ≫= f = []) as ->; [|by rewrite app_nil_r].
    clear IH. assert (∀ j y, l !! j = Some y → f y = []) as Hall
      by (intros j y Hj; by apply (Hother (S j) y)).
    clear Hother. induction l as [|b l IH]; [done|].
    rewrite bind_cons, (Hall 0 b eq_refl). simpl. apply IH.
    intros j y Hj. by apply (Hall (S j)).
  - rewrite (Hother 0 a eq_refl) by done. simpl. apply (IH i Hi).
    intros j y Hj Hne. apply (Hother (S j) y Hj). congruence.
Qed.

(** One step of the traversal from an object with a single parent. *)
Lemma traverse_sole_parent depth links path v parent i :
  links !! i = Some {| _from := v; _to := parent |} →
  (∀ j e, links !! j = Some e → _from e = v → j = i) →
  i ∉ path →
  traverse (S depth) (imap pair links) path v =
    v :: traverse depth (imap pair links) (i :: path) parent.
Proof.
  intros Hi Hsole Hfresh. simpl. f_equal.
  rewrite (bind_single _ _ i (i, {| _from := v; _to := parent |})).
  - simpl. rewrite bool_decide_eq_true_2 by done.
    by rewrite bool_decide_eq_true_2.
  - rewrite list_lookup_imap, Hi. done.
  - intros j [j' e] Hj Hne. rewrite list_lookup_imap in Hj.
    destruct (links !! j) as [e'|] eqn:He; [|done]. simpl in Hj.
    injection Hj as <- <-.
    destruct (decide (_from e' = v)) as [Hfrom | Hfrom].
    + by destruct Hne, (Hsole j e' He Hfrom).
    + by rewrite bool_decide_eq_false_2.
Qed.

Lemma candidate_None d name v : ¬ declares d v name → candidate d name v = None.
Proof.
  intros Hnot. unfold candidate.
  destruct (UvmObjects d !! v) as [doc|] eqn:Hdoc; [|done]. simpl.
  destruct (methods doc !! name) as [code|] eqn:Hcode; [|done].
  destruct Hnot. exists doc. split; [done | by eexists].
Qed.

Lemma nearest_on_line d name key doc code : ∀ before start depth path,
  UvmObjects d !! key = Some doc → methods doc !! name = Some code →
  head (before ++ [key]) = Some start →
  NoDup (before ++ [key]) →
  delegation_line (PrototypeLinks d) (before ++ [key]) →
  length before ≤ depth →
  (∀ i e, PrototypeLinks d !! i = Some e → _from e ∈ before → i ∉ path) →
  (∀ v, v ∈ before → ¬ declares d v name) →
  take 1 (omap (candidate d name)
            (traverse depth (imap pair (PrototypeLinks d)) path start))
    = [(key, doc, code)].
Proof.
  induction before as [|v before IH];
    intros start depth path Hdoc Hcode Hhead Hnodup Hline Hdepth Hpath Hnone.
  - simpl in Hhead. injection Hhead as <-.
    destruct (traverse_head depth (imap pair (PrototypeLinks d)) path key) as [tail ->].
    simpl. replace (candidate d name key) with (Some (key, doc, code)).
    + simpl. by rewrite take_0.
    + symmetry. by apply candidate_Some.
  - simpl in Hhead. injection Hhead as <-.
    destruct depth as [|depth]; [simpl in Hdepth; lia|].
    assert (∃ parent, head (before ++ [key]) = Some parent) as [parent Hparent]
      by (destruct before; simpl; eauto).
    destruct (Hline 0 v parent) as (i & Hi & Hsole); [done | |].
    { simpl. destruct before; simpl in *; congruence. }
    assert (i ∉ path) as Hfresh.
    { apply (Hpath i _ Hi). simpl. left. }
    rewrite (traverse_sole_parent depth _ path v parent i Hi Hsole Hfresh).
    simpl. rewrite candidate_None by (apply Hnone; left).
    apply NoDup_cons in Hnodup as [Hv Hnodup].
    apply IH; try done.
    + intros k u p Hu Hp. by apply (Hline (S k)).
    + simpl in Hdepth. lia.
    + intros j e Hj Hfrom. apply not_elem_of_cons. split.
      * intros ->. rewrite Hi in Hj. injection Hj as <-. simpl in Hfrom.
        apply Hv, elem_of_app. by left.
      * apply (Hpath j e Hj). by right.
    + intros u Hu. apply Hnone. by right.
Qed.

(** X6.  Along a line of single delegation (each object delegates to
    the next one and to nothing else) of at most 100 links, a message
    resolves on the nearest object that declares the method, the start
    object first: an object's own method overrides those of its
    prototypes, and a nearer prototype's those of a farther one. *)
Theorem nearest_declaring_ancestor d start name before key doc code :
  head (before ++ [key]) = Some start →
  NoDup (before ++ [key]) →
  delegation_line (PrototypeLinks d) (before ++ [key]) →
  length before ≤ 100 →
  (∀ v, v ∈ before → ¬ declares d v name) →
  UvmObjects d !! key = Some doc → methods doc !! name = Some code →
  resolver_query d start name = [(key, doc, code)].
Proof.
  intros Hhead Hnodup Hline Hdepth Hnone Hdoc Hcode.
  unfold resolver_query, outbound.
  apply (nearest_on_line d name key doc code before); try done.
  intros i e _ _ Hin. inversion Hin.
Qed.
Lemma keeps_methods_persisted d key doc final :
  UvmObjects d !! key = Some doc → keeps_methods d (persisted d key doc final).
Proof.
  intros Hdoc. split; [done|]. split; simpl.
  - rewrite dom_insert_L. apply elem_of_dom_2 in Hdoc.
    apply subseteq_union_1_L. by apply singleton_subseteq_l.
  - intros other. destruct (decide (other = key)) as [-> | Hne].
    + by rewrite lookup_insert_eq, Hdoc.
    + by rewrite lookup_insert_ne.
Qed.

Lemma keeps_methods_structure target name d d' :
  keeps_methods d d' → keeps_structure target name d d'.
Proof.
  intros (Hlinks & Hdom & Hmethods). split; [done|]. split; [done|].
  intros key doc doc' Hdoc Hdoc' method _. specialize (Hmethods key).
  rewrite Hdoc, Hdoc' in Hmethods. simpl in Hmethods. by injection Hmethods as ->.
Qed.

Lemma keeps_structure_refl target name d : keeps_structure target name d d.
Proof.
  split; [done|]. split; [done|]. intros key doc doc' Hdoc Hdoc' method _. congruence.
Qed.

Lemma keeps_structure_trans target name d1 d2 d3 :
  keeps_structure target name d1 d2 → keeps_structure target name d2 d3 →
  keeps_structure target name d1 d3.
Proof.
  intros (Hl1 & Hd1 & Hm1) (Hl2 & Hd2 & Hm2).
  split; [congruence|]. split; [congruence|].
  intros key doc doc' Hdoc Hdoc' method Hother.
  assert (is_Some (UvmObjects d2 !! key)) as [doc2 Hdoc2].
  { apply elem_of_dom. rewrite Hd1. by apply elem_of_dom_2 in Hdoc. }
  rewrite (Hm2 _ _ _ Hdoc2 Hdoc' _ Hother). by apply (Hm1 _ _ _ Hdoc Hdoc2).
Qed.

Lemma keeps_world_refl target name w : keeps_world target name w w.
Proof. split; [done|]. destruct (db w); [apply keeps_structure_refl | done]. Qed.

Lemma keeps_world_trans target name w1 w2 w3 :
  keeps_world target name w1 w2 → keeps_world target name w2 w3 →
  keeps_world target name w1 w3.
Proof.
  intros [Hh1 Hs1] [Hh2 Hs2]. split; [congruence|].
  destruct (db w1), (db w2), (db w3); try done. by eapply keeps_structure_trans.
Qed.

Lemma keeps_world_same_db target name w w' :
  db w' = db w → http_client w' = http_client w → keeps_world target name w w'.
Proof.
  intros Hdb Hhttp. split; [done|]. rewrite Hdb.
  destruct (db w); [apply keeps_structure_refl | done].
Qed.

Lemma keeps_structure_installed target name code d doc :
  UvmObjects d !! target = Some doc →
  keeps_structure target name d (installed d target name code doc).
Proof.
  intros Hdoc. split; [done|]. split; simpl.
  - rewrite dom_insert_L. apply elem_of_dom_2 in Hdoc.
    apply subseteq_union_1_L. by apply singleton_subseteq_l.
  - intros key doc1 doc2 Hdoc1 Hdoc2 method Hother.
    destruct (decide (key = target)) as [-> | Hne].
    + rewrite lookup_insert_eq in Hdoc2. injection Hdoc2 as <-. simpl.
      rewrite Hdoc in Hdoc1. injection Hdoc1 as <-.
      destruct Hother as [? | Hmethod]; [done|].
      rewrite lookup_union_r; [done|]. by apply lookup_singleton_ne.
    + rewrite lookup_insert_ne in Hdoc2 by done. congruence.
Qed.

Variable exec : Sandbox.interpreter.

Lemma resolve_frame start name args kwargs w :
  let w' := (resolve_and_execute_method exec start name args kwargs w).2 in
  http_client w' = http_client w ∧ generations w' = generations w ∧
  match db w, db w' with
  | Some d, Some d' => keeps_methods d d'
  | None, None => True
  | _, _ => False
  end.
Proof.
  cbv zeta. destruct (db w) as [d|] eqn:Hdb.
  - destruct (resolver_query d start name) as [|[[key doc] code] rest] eqn:Hq.
    + rewrite (resolve_miss exec _ _ _ _ _ _ Hdb Hq). simpl. by rewrite Hdb.
    + pose proof (resolver_query_hit _ _ _ _ _ _ _ Hq) as (_ & Hdoc & _ & _).
      destruct (body_returns_or_raises exec (payload_of name args kwargs doc code))
        as [(out & final & Hret) | (cls & msg & Hraises)].
      * rewrite (resolve_hit_returns exec _ _ _ _ _ _ _ _ _ _ _ _ Hdb Hq Hret).
        destruct (Sandbox._p_changed final); simpl; [|by rewrite Hdb].
        split; [done|]. split; [done|]. by apply keeps_methods_persisted.
      * rewrite (resolve_hit_raises exec _ _ _ _ _ _ _ _ _ _ _ _ Hdb Hq Hraises).
        simpl. by rewrite Hdb.
  - rewrite (resolve_without_db exec _ _ _ _ _ Hdb). simpl. by rewrite Hdb.
Qed.

(** X4.  Resolving and executing a method writes attributes at most: the
    links, the set of stored objects and every method table are as
    before, and so are the client handle and the engine's counter; no
    database appears or disappears. *)
Theorem resolve_keeps_methods start name args kwargs w :
  let w' := (resolve_and_execute_method exec start name args kwargs w).2 in
  http_client w' = http_client w ∧ generations w' = generations w ∧
  match db w, db w' with
  | Some d, Some d' => keeps_methods d d'
  | None, None => True
  | _, _ => False
  end.
Proof. apply resolve_frame. Qed.

Lemma resolve_keeps_world target name start method args kwargs w :
  keeps_world target name w (resolve_and_execute_method exec start method args kwargs w).2.
Proof.
  pose proof (resolve_frame start method args kwargs w) as (Hhttp & _ & Hdb).
  cbv zeta in *. split; [done|].
  destruct (db w), (db _); try done. by apply keeps_methods_structure.
Qed.

(** X5.  The store changes in [resolve_and_execute_method] only when the
    resolved body returns with the flag set, and then by the attribute
    patch on the declaring object: a body that raises, or one that
    changes its working copy without setting the flag, leaves the store
    as it was. *)
Theorem store_changes_only_on_flagged_return start name args kwargs w :
  db (resolve_and_execute_method exec start name args kwargs w).2 ≠ db w →
  ∃ d key doc code out final,
    db w = Some d ∧
    resolver_query d start name = [(key, doc, code)] ∧
    body_returns exec (payload_of name args kwargs doc code) out final ∧
    Sandbox._p_changed final = true ∧
    db (resolve_and_execute_method exec start name args kwargs w).2
      = Some (persisted d key doc (Sandbox.attributes final)).
Proof.
  destruct (db w) as [d|] eqn:Hdb.
  2:{ rewrite (resolve_without_db exec _ _ _ _ _ Hdb). simpl. congruence. }
  destruct (resolver_query d start name) as [|[[key doc] code] rest] eqn:Hq.
  { rewrite (resolve_miss exec _ _ _ _ _ _ Hdb Hq). simpl. congruence. }
  pose proof (resolver_query_hit _ _ _ _ _ _ _ Hq) as (-> & _).
  destruct (body_returns_or_raises exec (payload_of name args kwargs doc code))
    as [(out & final & Hret) | (cls & msg & Hraises)].
  - rewrite (resolve_hit_returns exec _ _ _ _ _ _ _ _ _ _ _ _ Hdb Hq Hret).
    destruct (Sandbox._p_changed final) eqn:Hflag; simpl; [|congruence].
    intros _. by exists d, key, doc, code, out, final.
  - rewrite (resolve_hit_raises exec _ _ _ _ _ _ _ _ _ _ _ _ Hdb Hq Hraises).
    simpl. congruence.
Qed.
End FrameProofs.

(** ** Dispatch: answers, learning, giving up *)
Section DispatchMore.
Import Arango Runtime DbClient Orchestrator Vocabulary Frame.
Variable ast_parse : string → outcome Security.ast.
Variable exec : Sandbox.interpreter.
Variable generate_code : nat → string → list value → gmap string value → string.

Abbreviation process_message := (Orchestrator.process_message ast_parse exec generate_code).
Abbreviation does_not_understand :=
  (Orchestrator.does_not_understand ast_parse exec generate_code).

Lemma dispatch_frame fuel : ∀ target name args kwargs w,
  keeps_world target name w (process_message fuel target name args kwargs w).2.
Proof.
  induction fuel as [|fuel IH]; intros target name args kwargs w.
  - apply keeps_world_refl.
  - rewrite process_message_unfold.
    destruct (negb (http_client w)); [apply keeps_world_refl|].
    pose proof (resolve_keeps_world exec target name target name args kwargs w) as Hresolve.
    destruct (resolve_and_execute_method _ _ _ _ _ _) as [[result|] w1]; [done|].
    simpl in Hresolve. eapply keeps_world_trans; [exact Hresolve|].
    unfold Orchestrator.does_not_understand. rewrite does_not_understand_unfold. cbv zeta.
    set (w2 := answered _).
    assert (keeps_world target name w1 w2) as Hw2 by by apply keeps_world_same_db.
    destruct (String.eqb _ ""); [done|].
    destruct (Security.audit _ _) as [[|]|]; [|done..].
    rewrite install_method_unfold. simpl db.
    destruct (db w1) as [d|] eqn:Hdb; [|by apply keeps_world_same_db].
    destruct (UvmObjects d !! target) as [doc|] eqn:Hdoc; [|by apply keeps_world_same_db].
    eapply keeps_world_trans; [|apply IH].
    split; [done|]. simpl. rewrite Hdb. by apply keeps_structure_installed.
Qed.

(** X10.  However a dispatch goes, and however many generation cycles
    it runs through, it leaves the prototype links as they were, adds and
    removes no object, and changes no method other than the one the
    message names on the object the message went to; the client handle
    stays, and no database appears or disappears. *)
Theorem dispatch_keeps_world fuel target name args kwargs w :
  keeps_world target name w (process_message fuel target name args kwargs w).2.
Proof. apply dispatch_frame. Qed.

Lemma hit_run fuel target name args kwargs w d key doc code rest out final :
  http_client w = true → db w = Some d →
  resolver_query d target name = (key, doc, code) :: rest →
  body_returns exec (payload_of name args kwargs doc code) out final →
  (process_message (S fuel) target name args kwargs w).1
    = Success out (Sandbox._p_changed final) ∧
  trace (process_message (S fuel) target name args kwargs w).2
    = trace w ++ Execute (payload_of name args kwargs doc code) :: write_back key final ∧
  generations (process_message (S fuel) target name args kwargs w).2 = generations w ∧
  db (process_message (S fuel) target name args kwargs w).2
    = if Sandbox._p_changed final
      then Some (persisted d key doc (Sandbox.attributes final)) else Some d.
Proof.
  intros Hhttp Hdb Hq Hret. rewrite process_message_unfold, Hhttp. simpl.
  rewrite (resolve_hit exec _ _ _ _ _ _ _ _ _ _ Hdb Hq). cbv zeta.
  rewrite (execute_code_returns _ _ _ _ Hret). simpl. unfold write_back.
  destruct (Sandbox._p_changed final); simpl; [|done].
  by rewrite <- app_assoc.
Qed.

(** X7.  A message whose method resolves and whose body runs to its end
    is answered at once: the caller gets the body's output and flag, the
    log gains the execution and, with the flag set, the attribute write
    on the declaring object; the engine is not consulted. *)
Theorem hit_is_answered fuel target name args kwargs w d key doc code rest out final :
  http_client w = true → db w = Some d →
  resolver_query d target name = (key, doc, code) :: rest →
  body_returns exec (payload_of name args kwargs doc code) out final →
  (process_message (S fuel) target name args kwargs w).1
    = Success out (Sandbox._p_changed final) ∧
  trace (process_message (S fuel) target name args kwargs w).2
    = trace w ++ Execute (payload_of name args kwargs doc code) :: write_back key final ∧
  generations (process_message (S fuel) target name args kwargs w).2 = generations w ∧
  db (process_message (S fuel) target name args kwargs w).2
    = if Sandbox._p_changed final
      then Some (persisted d key doc (Sandbox.attributes final)) else Some d.
Proof. apply hit_run. Qed.

(** X9.  The two ways a generation cycle ends with nothing installed and
    nothing run, besides the audit's rejection: the engine answers with
    the empty string ("Code generation failed"), or the answer passes
    the audit and there is no database or no document to install it on
    ("Method installation failed").  The store is untouched in both, and
    the log shows the request and, in the second case, the attempt. *)
Theorem generation_cycle_gives_up fuel target name args kwargs w :
  let answer := generate_code (generations w) name args kwargs in
  let w' := (does_not_understand fuel target name args kwargs w).2 in
  (answer = "" →
     (does_not_understand fuel target name args kwargs w).1
       = Failure "Code generation failed" ∧
     db w' = db w ∧ trace w' = trace w ++ [Generate name args kwargs]) ∧
  (answer ≠ "" → Security.audit ast_parse answer = Returns true →
   (db w = None ∨ ∃ d, db w = Some d ∧ UvmObjects d !! target = None) →
     (does_not_understand fuel target name args kwargs w).1
       = Failure "Method installation failed" ∧
     db w' = db w ∧
     trace w' = trace w ++ [Generate name args kwargs; InstallMethod target name answer]).
Proof.
  cbv zeta. unfold Orchestrator.does_not_understand.
  rewrite does_not_understand_unfold. cbv zeta. split.
  - intros ->. done.
  - intros Hanswer Haudit Hmissing. rewrite Haudit.
    destruct (String.eqb_spec (generate_code (generations w) name args kwargs) ""); [done|].
    rewrite install_method_unfold. simpl db.
    destruct Hmissing as [Hnone | (d & Hsome & Hnodoc)].
    + rewrite Hnone. simpl. repeat split; try done. by rewrite <- app_assoc.
    + rewrite Hsome, Hnodoc. simpl. repeat split; try done. by rewrite <- app_assoc.
Qed.

(** X8.  Learning a method.  A message to a stored object that resolves
    nowhere, with an answer of the engine that is not empty, passes the
    audit and runs to its end on the object's state, is answered with
    the output of the new method after one request to the engine, one
    installation and one execution; afterwards the object holds the
    answer under the method's name beside the methods it had, and the
    next message of that name resolves on the object itself, with the
    answer as its body. *)
Theorem miss_is_learned fuel target name args kwargs w d doc out final :
  let answer := generate_code (generations w) name args kwargs in
  let run := process_message (S (S fuel)) target name args kwargs w in
  http_client w = true → db w = Some d →
  resolver_query d target name = [] →
  UvmObjects d !! target = Some doc →
  answer ≠ "" → Security.audit ast_parse answer = Returns true →
  body_returns exec (payload_of name args kwargs doc answer) out final →
  run.1 = Success out (Sandbox._p_changed final) ∧
  trace run.2 =
    trace w ++ [Generate name args kwargs; InstallMethod target name answer;
                Execute (payload_of name args kwargs doc answer)]
            ++ write_back target final ∧
  generations run.2 = S (generations w) ∧
  ∃ d' doc', db run.2 = Some d' ∧ UvmObjects d' !! target = Some doc' ∧
             methods doc' = <[name := answer]> (methods doc) ∧
             resolver_query d' target name = [(target, doc', answer)].
Proof.
  cbv zeta. intros Hhttp Hdb Hmiss Hdoc Hanswer Haudit Hret.
  rewrite process_message_unfold, Hhttp. simpl negb. cbv iota.
  rewrite (resolve_miss exec _ _ _ _ _ _ Hdb Hmiss).
  unfold Orchestrator.does_not_understand. rewrite does_not_understand_unfold. cbv zeta.
  rewrite Haudit.
  destruct (String.eqb_spec (generate_code (generations w) name args kwargs) ""); [done|].
  set (answer := generate_code (generations w) name args kwargs) in *.
  set (w2 := logged _ [InstallMethod target name answer]).
  assert (db w2 = Some d) as Hdb2 by done.
  rewrite install_method_unfold, Hdb2, Hdoc.
  set (w3 := stored _ _).
  set (doc3 := {| attributes := attributes doc;
                  methods := {[ name := answer ]} ∪ methods doc |}).
  assert (UvmObjects (installed d target name answer doc) !! target = Some doc3) as Hdoc3
    by apply lookup_insert_eq.
  assert (methods doc3 !! name = Some answer) as Hcode3
    by apply lookup_union_Some_l, lookup_singleton_eq.
  destruct (hit_run fuel target name args kwargs w3
              (installed d target name answer doc) target doc3 answer [] out final)
    as (Hreply & Htrace & Hgen & Hstore);
    [done | done | by apply resolver_query_start | exact Hret |].
  split; [exact Hreply|]. split; [rewrite Htrace; simpl; by rewrite <- !app_assoc|].
  split; [by rewrite Hgen|]. rewrite Hstore.
  assert (methods doc3 = <[name := answer]> (methods doc)) as Hmethods
    by (symmetry; apply insert_union_singleton_l).
  destruct (Sandbox._p_changed final).
  - eexists _, _. split; [done|]. simpl. split; [apply lookup_insert_eq|].
    split; [exact Hmethods|].
    apply resolver_query_start; simpl; [apply lookup_insert_eq | exact Hcode3].
  - exists (installed d target name answer doc), doc3. split; [done|].
    split; [exact Hdoc3|]. split; [exact Hmethods|].
    by apply resolver_query_start.
Qed.



End DispatchMore.

Section HealthProofs.
Import Arango Runtime Gateway.
Variable version : Arango.database → outcome ().
Variable ollama_list : outcome ().

Lemma report_ok probe : report probe = "OK" ↔ ∃ u, probe = Returns u.
Proof.
  destruct probe as [u | cls msg]; simpl.
  - split; [by exists u | done].
  - split; [done | by intros [u ?]].
Qed.

(** X12.  [GET /health] answers 200 exactly when the database is
    connected and both probes return, and 503 in every other case; the
    body always reports on both services, and the probes' exceptions
    never escape. *)
Theorem health_status w :
  let '(status, health) := (get_system_health version ollama_list w).1 in
  (status = 200 ↔
     (∃ d, db w = Some d ∧ version d = Returns ()) ∧ ollama_list = Returns ()) ∧
  (status = 503 ↔ status ≠ 200) ∧
  dom health = {[ "arangodb"; "ollama" ]}.
Proof.
  unfold get_system_health, check_system_health, mbind, M_bind, mret, M_ret, get. simpl.
  set (arangodb := match db w with Some d => version d | None => _ end).
  assert (report arangodb = "OK" ↔ ∃ d, db w = Some d ∧ version d = Returns ()) as Harango.
  { rewrite report_ok. subst arangodb. destruct (db w) as [d|].
    - split; [intros [[] ?]; by exists d | intros (d' & [= <-] & ->); by exists ()].
    - split; [by intros [? ?] | by intros (? & ? & _)]. }
  assert (report ollama_list = "OK" ↔ ollama_list = Returns ()) as Hollama.
  { rewrite report_ok. split; [by intros [[] ?] | by exists ()]. }
  split; [|split].
  - case_bool_decide as Hall.
    + split; [intros _ | done]. rewrite <- Harango, <- Hollama.
      split; [apply (Hall "arangodb") | apply (Hall "ollama")]; by simplify_map_eq.
    + split; [done|]. intros [Ha Ho]. destruct Hall.
      apply Harango in Ha. apply Hollama in Ho.
      intros k s Hks. apply lookup_insert_Some in Hks as [[_ <-] | [_ Hks]]; [done|].
      apply lookup_singleton_Some in Hks as [_ <-]. done.
  - case_bool_decide; split; done.
  - rewrite dom_insert_L, dom_singleton_L. done.
Qed.
End HealthProofs.

(** ** Instances of the dispatch properties on the demo stores *)

Lemma greet_returns :
  Vocabulary.body_returns Demo.exec
    (Vocabulary.payload_of "greet" Scenario.architect ∅ Demo.blank Demo.greet_code)
    (VStr "Hello, Architect")
    {| Sandbox.attributes := ∅; Sandbox._p_changed := false |}.
Proof. by eapply Vocabulary.returns_from_call. Qed.

Lemma family_line :
  Vocabulary.delegation_line (Arango.PrototypeLinks Demo.family) ["A"; "B"].
Proof.
  intros [|[|k]] v parent Hv Hparent; try done.
  injection Hv as <-. injection Hparent as <-.
  exists 0. split; [done|].
  intros [|[|[|j]]] e He Hfrom; try done.
  injection He as <-. done.
Qed.

(** X6 on [A → B → nil]: [set_n], which [A] does not declare, resolves
    on [B]. *)
Lemma nearest_declaring_ancestor_witness :
  Arango.resolver_query Demo.family "A" "set_n" =
    [("B", Demo.declaring {[ "n" := VInt 0 ]} "set_n" Demo.set_n_code, Demo.set_n_code)].
Proof.
  apply (nearest_declaring_ancestor Demo.family "A" "set_n" ["A"] "B").
  - reflexivity.
  - apply NoDup_cons. split; [by intros ?%list_elem_of_singleton|].
    apply NoDup_singleton.
  - exact family_line.
  - simpl. lia.
  - intros v ->%list_elem_of_singleton (doc & Hdoc & code & Hcode).
    vm_compute in Hdoc. injection Hdoc as <-. vm_compute in Hcode. discriminate Hcode.
  - reflexivity.
  - reflexivity.
Defined.

(** X7 on the same store: [set_n(5)] sent to [A] is answered with the
    flag set and written to [B], without a request to the engine. *)
Lemma hit_is_answered_witness :
  let run := Orchestrator.process_message Demo.ast_parse Demo.exec
               (Demo.engine Demo.greet_code) 1 "A" "set_n" [VInt 5] ∅
               (Demo.running Demo.family) in
  run.1 = Orchestrator.Success VNull true ∧
  Runtime.trace run.2 =
    [Runtime.Execute
       (Vocabulary.payload_of "set_n" [VInt 5] ∅
          (Demo.declaring {[ "n" := VInt 0 ]} "set_n" Demo.set_n_code) Demo.set_n_code);
     Runtime.UpdateAttributes "B" {[ "n" := VInt 5 ]}] ∧
  Runtime.generations run.2 = 0.
Proof.
  destruct (hit_is_answered Demo.ast_parse Demo.exec (Demo.engine Demo.greet_code)
              0 "A" "set_n" [VInt 5] ∅ (Demo.running Demo.family) Demo.family
              "B" _ _ [] VNull _ eq_refl eq_refl family_resolves_on_B set_n_returns)
    as (Hreply & Htrace & Hgen & _).
  split; [exact Hreply|]. split; [exact Htrace | exact Hgen].
Defined.

(** X5 on the same store: the run changes the store, so it returned with
    the flag set. *)
Lemma store_changes_only_on_flagged_return_witness :
  ∃ key doc code out final,
    Arango.resolver_query Demo.family "A" "set_n" = [(key, doc, code)] ∧
    Vocabulary.body_returns Demo.exec
      (Vocabulary.payload_of "set_n" [VInt 5] ∅ doc code) out final ∧
    Sandbox._p_changed final = true.
Proof.
  destruct (store_changes_only_on_flagged_return Demo.exec "A" "set_n" [VInt 5] ∅
              (Demo.running Demo.family))
    as (d & key & doc & code & out & final & Hdb & Hquery & Hret & Hflag & _).
  - intros Hsame.
    apply (f_equal (λ store, store ≫= λ d, Arango.attributes <$> Arango.UvmObjects d !! "B"))
      in Hsame.
    vm_compute in Hsame. discriminate Hsame.
  - injection Hdb as <-. by exists key, doc, code, out, final.
Defined.

(** X8 on the store of [genesis.py]: [greet], unknown to [system], is
    answered after one generation. *)
Lemma miss_is_learned_witness :
  let run := Orchestrator.process_message Demo.ast_parse Demo.exec
               (Demo.engine Demo.greet_code) 2 "system" "greet" Scenario.architect ∅
               (Demo.running Demo.genesis) in
  run.1 = Orchestrator.Success (VStr "Hello, Architect") false ∧
  Runtime.generations run.2 = 1 ∧
  ∃ d' doc', Runtime.db run.2 = Some d' ∧
             Arango.resolver_query d' "system" "greet" = [("system", doc', Demo.greet_code)].
Proof.
  destruct (miss_is_learned Demo.ast_parse Demo.exec (Demo.engine Demo.greet_code)
              0 "system" "greet" Scenario.architect ∅ (Demo.running Demo.genesis)
              Demo.genesis Demo.blank (VStr "Hello, Architect") _
              eq_refl eq_refl eq_refl eq_refl ltac:(discriminate) eq_refl greet_returns)
    as (Hreply & _ & Hgen & d' & doc' & Hdb & _ & _ & Hquery).
  split; [exact Hreply|]. split; [exact Hgen|]. by exists d', doc'.
Defined.


(** ** The command-line parser *)
Section CliProofs.
Import Stdlib.Strings.Ascii Python Cli.
Context {J : Type}.
Variable json_loads : string → outcome J.
Variable str : string → J.
Hypothesis Herrors : decode_errors_only json_loads.

Lemma split_keyword key text :
  occurs "="%char key = false →
  occurs "="%char (keyword key text) = true ∧
  split "="%char (keyword key text) = [key; text].
Proof.
  unfold keyword. induction key as [|a key IH]; simpl; [done|].
  intros [Ha Hkey]%orb_false_iff. rewrite Ha. simpl.
  destruct (IH Hkey) as [-> ->]. done.
Qed.

Lemma split_occurs s :
  occurs "="%char s = true →
  ∃ key text, s = keyword key text ∧ occurs "="%char key = false ∧
              split "="%char s = [key; text].
Proof.
  induction s as [|a s IH]; simpl; [done|].
  destruct (Ascii.eqb a "="%char) eqn:Ha; simpl.
  - intros _. apply Ascii.eqb_eq in Ha as ->. by exists EmptyString, s.
  - intros (key & text & -> & Hkey & Hsplit)%IH.
    exists (String a key), text. rewrite Hsplit. simpl. by rewrite Ha, Hkey.
Qed.

Lemma loads_or_text_decode text :
  loads_or_text json_loads str text = Returns (decode json_loads str text).
Proof using Herrors.
  unfold loads_or_text, decode. destruct (json_loads text) as [v|cls msg] eqn:Hl; [done|].
  apply Herrors in Hl as ->. done.
Qed.

(** The pair of accumulators after the loop body has seen [arg]. *)
Lemma parse_arg_returns args kwargs arg :
  parse_arg json_loads str (args, kwargs) arg =
    Returns
      (if occurs "="%char arg then args else args ++ [decode json_loads str arg],
       match split "="%char arg with
       | [key; text] =>
           if occurs "="%char arg then <[key := decode json_loads str text]> kwargs
           else kwargs
       | _ => kwargs
       end).
Proof using Herrors.
  unfold parse_arg. destruct (occurs "="%char arg) eqn:Harg.
  - destruct (split_occurs arg Harg) as (key & text & _ & _ & ->).
    by rewrite loads_or_text_decode.
  - rewrite loads_or_text_decode. simpl. by destruct (split "="%char arg) as [|? [|? [|]]].
Qed.

Lemma parse_loop_positional args kwargs args_list :
  ∃ kwargs',
    parse_loop json_loads str (args, kwargs) args_list =
      Returns (args ++ (decode json_loads str <$>
                 filter (λ arg, occurs "="%char arg = false) args_list), kwargs').
Proof using Herrors.
  revert args kwargs. induction args_list as [|arg rest IH]; intros args kwargs.
  - exists kwargs. simpl. by rewrite app_nil_r.
  - cbn [parse_loop]. rewrite parse_arg_returns. cbn [mbind outcome_bind].
    rewrite filter_cons.
    destruct (occurs "="%char arg) eqn:Harg.
    + rewrite decide_False by done. apply IH.
    + rewrite decide_True by done.
      edestruct IH as [kwargs' ->]. exists kwargs'. by rewrite <- app_assoc.
Qed.

Lemma parse_loop_keeps args kwargs args_list args' kwargs' key :
  parse_loop json_loads str (args, kwargs) args_list = Returns (args', kwargs') →
  (∀ arg text, arg ∈ args_list → arg ≠ keyword key text) →
  occurs "="%char key = false →
  kwargs' !! key = kwargs !! key.
Proof using Herrors.
  revert args kwargs. induction args_list as [|arg rest IH]; intros args kwargs.
  - by intros [= _ ->].
  - cbn [parse_loop]. rewrite parse_arg_returns. cbn [mbind outcome_bind].
    intros Hloop Hother Hkey.
    rewrite (IH _ _ Hloop); [|intros; apply Hother; by right|done].
    destruct (occurs "="%char arg) eqn:Harg.
    + destruct (split_occurs arg Harg) as (key' & text & -> & Hkey' & ->).
      rewrite lookup_insert_ne; [done|]. intros ->.
      by apply (Hother (keyword key text) text); [left|].
    + by destruct (split "="%char arg) as [|? [|? [|]]].
Qed.

Lemma parse_loop_app acc l1 l2 :
  parse_loop json_loads str acc (l1 ++ l2) =
    acc ← parse_loop json_loads str acc l1; parse_loop json_loads str acc l2.
Proof.
  revert acc. induction l1 as [|arg l1 IH]; intros acc; simpl; [done|].
  destruct (parse_arg json_loads str acc arg) as [acc'|]; simpl; [apply IH | done].
Qed.

(** X18.  With a JSON parser that raises nothing but [JSONDecodeError],
    [parse_args] never raises, and the positional arguments are the
    tokens without an equals sign, in their order, each read as its JSON
    value or, where it is not JSON, as the token itself.  A token with
    an equals sign is never positional, also when it is a quoted JSON
    string. *)
Theorem positional_arguments_in_order args_list :
  ∃ kwargs,
    parse_args json_loads str args_list =
      Returns (decode json_loads str <$>
                 filter (λ arg, occurs "="%char arg = false) args_list, kwargs).
Proof using Herrors. apply (parse_loop_positional [] ∅). Qed.

(** X19.  A keyword token is cut at its first equals sign, so the value
    may contain further ones, and of several tokens for one key the last
    one counts. *)
Theorem last_keyword_wins before key text after args kwargs :
  occurs "="%char key = false →
  (∀ arg text', arg ∈ after → arg ≠ keyword key text') →
  parse_args json_loads str (before ++ keyword key text :: after) = Returns (args, kwargs) →
  kwargs !! key = Some (decode json_loads str text).
Proof using Herrors.
  intros Hkey Hafter. unfold parse_args. rewrite parse_loop_app.
  destruct (parse_loop_positional [] ∅ before) as [kwargs0 ->].
  cbn [mbind outcome_bind parse_loop]. rewrite parse_arg_returns.
  destruct (split_keyword key text Hkey) as [-> ->]. cbn [mbind outcome_bind].
  intros Hloop. rewrite (parse_loop_keeps _ _ _ _ _ key Hloop Hafter Hkey).
  apply lookup_insert_eq.
Qed.
End CliProofs.

Lemma numerals_errors : Cli.decode_errors_only Cli.numerals.
Proof.
  intros text cls msg. unfold Cli.numerals.
  repeat case_match; congruence.
Qed.

(** X18 on [2 n=1 x 1]. *)
Lemma positional_arguments_in_order_witness :
  ∃ kwargs,
    Cli.parse_args Cli.numerals VStr ["2"; "n=1"; "x"; "1"] =
      Returns ([VInt 2; VStr "x"; VInt 1], kwargs).
Proof.
  apply (positional_arguments_in_order Cli.numerals VStr numerals_errors
           ["2"; "n=1"; "x"; "1"]).
Defined.

(** X19 on [n=1 x n=a=b m=2]: [n] is the string [a=b]. *)
Lemma last_keyword_wins_witness :
  ∃ args kwargs,
    Cli.parse_args Cli.numerals VStr ["n=1"; "x"; "n=a=b"; "m=2"] = Returns (args, kwargs) ∧
    kwargs !! "n" = Some (VStr "a=b").
Proof.
  eexists _, _. split; [reflexivity|].
  apply (last_keyword_wins Cli.numerals VStr numerals_errors
           ["n=1"; "x"] "n" "a=b" ["m=2"] [VStr "x"]).
  - reflexivity.
  - intros arg text' ->%list_elem_of_singleton. by vm_compute.
  - reflexivity.
Defined.

(** ** The cognitive engine *)
Section CognitiveProofs.
Import Stdlib.Strings.Ascii Python Cognitive.
Variable isspace : Ascii.ascii → bool.
Variable json_loads : string → outcome value.
Abbreviation lstrip := (Cognitive.lstrip isspace).
Abbreviation rstrip := (Cognitive.rstrip isspace).
Abbreviation strip := (Cognitive.strip isspace).
Abbreviation trimmed := (Cognitive.trimmed isspace).

Lemma lstrip_first s :
  match first_char (lstrip s) with Some c => isspace c = false | None => True end.
Proof.
  induction s as [|c s IH]; simpl; [done|].
  destruct (isspace c) eqn:Hc; [done|]. simpl. done.
Qed.

Lemma rstrip_last s :
  match last_char (rstrip s) with Some c => isspace c = false | None => True end.
Proof.
  induction s as [|c s IH]; simpl; [done|].
  destruct (rstrip s) as [|c' kept] eqn:Hkept.
  - destruct (isspace c) eqn:Hc; simpl; done.
  - simpl in *. done.
Qed.

(** Removing trailing whitespace keeps the first character of what is
    left. *)
Lemma rstrip_first s :
  rstrip s = EmptyString ∨ first_char (rstrip s) = first_char s.
Proof.
  destruct s as [|c s]; simpl; [by left|].
  destruct (rstrip s); [|by right].
  destruct (isspace c); [by left | by right].
Qed.

Lemma last_char_some c s : is_Some (last_char (String c s)).
Proof.
  revert c. induction s as [|c' s IH]; intros c; simpl; [by eexists|]. apply IH.
Qed.

Lemma strip_trimmed s : strip s = EmptyString ∨ trimmed (strip s).
Proof.
  unfold Cognitive.strip. destruct (rstrip (lstrip s)) as [|c kept] eqn:Hs; [by left|].
  right. pose proof (rstrip_last (lstrip s)) as Hlast.
  pose proof (rstrip_first (lstrip s)) as [Hempty | Hfirst]; [congruence|].
  pose proof (lstrip_first s) as Hf. rewrite <- Hfirst, Hs in Hf.
  rewrite Hs in Hlast. destruct (last_char_some c kept) as [last Hl].
  rewrite Hl in Hlast. exists c, last. by split_and!.
Qed.

Lemma lstrip_fixed s :
  match first_char s with Some c => isspace c = false | None => True end →
  lstrip s = s.
Proof. destruct s as [|c s]; simpl; [done|]. by intros ->. Qed.

Lemma rstrip_idempotent s : rstrip (rstrip s) = rstrip s.
Proof.
  induction s as [|c s IH]; simpl; [done|].
  destruct (rstrip s) as [|c' kept] eqn:Hkept.
  - destruct (isspace c) eqn:Hc; simpl; [done|]. by rewrite Hc.
  - change (rstrip (String c (String c' kept))) with
      (match rstrip (String c' kept) with
       | EmptyString => if isspace c then EmptyString else String c EmptyString
       | kept' => String c kept'
       end).
    by rewrite IH.
Qed.

Lemma strip_idempotent s : strip (strip s) = strip s.
Proof.
  unfold Cognitive.strip.
  pose proof (rstrip_first (lstrip s)) as [Hempty | Hfirst].
  - by rewrite Hempty.
  - rewrite lstrip_fixed; [apply rstrip_idempotent|].
    rewrite Hfirst. apply lstrip_first.
Qed.

Lemma parse_result_trimmed response :
  let code := parse_code_from_response isspace json_loads response in
  strip code = code ∧ (code ≠ "" → trimmed code).
Proof.
  unfold parse_code_from_response.
  destruct (parse_attempt isspace json_loads response) as [code|] eqn:Hattempt; [|done].
  unfold parse_attempt in Hattempt.
  destruct (dict_get response "message" (VObj ∅)) as [message|]; [|done].
  simpl in Hattempt.
  destruct (dict_get message "content" (VStr "{}")) as [content|]; [|done].
  simpl in Hattempt.
  destruct (loads json_loads content) as [parsed|]; [|done]. simpl in Hattempt.
  destruct (dict_get parsed "python_code" (VStr "")) as [[| | |text| |]|];
    simpl in Hattempt; try discriminate;
    try (injection Hattempt as <-; split; [done | by intros []]).
  destruct (String.eqb_spec (strip text) ""); simpl in Hattempt;
    injection Hattempt as <-; [split; [done | by intros []]|].
  split; [apply strip_idempotent|]. intros _. by destruct (strip_trimmed text).
Qed.

(** X20.  Whatever the response, [parse_code_from_response] returns a
    string that stripping leaves unchanged; when it is not empty it
    begins and ends with a character that is not whitespace, and it is
    the stripped [python_code] string of the JSON object in the
    response's message content.  (The hypothesis: the default content
    [{}] decodes to the empty object.) *)
Theorem parsed_code_is_trimmed response :
  json_loads "{}" = Returns (VObj ∅) →
  let code := parse_code_from_response isspace json_loads response in
  strip code = code ∧
  (code ≠ "" →
     trimmed code ∧ ∃ text, carries json_loads response text ∧ code = strip text).
Proof.
  intros Hbraces code. destruct (parse_result_trimmed response) as [Hstrip Htrim].
  split; [done|]. intros Hcode. split; [by apply Htrim|]. clear Hstrip Htrim.
  subst code. revert Hcode.
  unfold parse_code_from_response, parse_attempt, carries.
  destruct response as [| | | | |fields]; try done. simpl.
  destruct (fields !! "message") as [[| | | | |message]|] eqn:Hmessage; try done; simpl.
  - destruct (message !! "content") as [[| | |content| |]|] eqn:Hcontent; try done; simpl.
    + destruct (json_loads content) as [[| | | | |parsed]|] eqn:Hparsed; try done; simpl.
      destruct (parsed !! "python_code") as [[| | |text| |]|] eqn:Htext; try done; simpl.
      destruct (String.eqb_spec (strip text) ""); simpl; [done|]. intros _.
      exists text. split; [|done]. by exists fields, message, content, parsed.
    + by rewrite Hbraces.
  - rewrite lookup_empty. simpl. by rewrite Hbraces.
Qed.

(** X21.  [generate_code] raises only before it calls the model:
    [RuntimeError] without a client, [ValueError] when no model is
    configured for ALFRED.  Once it calls the model it returns: the
    parsed code of the response, or the empty string when the call
    raises. *)
Theorem generation_contains_chat_failures self creative_mandate method_name
    (get_code_generation_prompt : string → string → string)
    (chat : string → string → string → outcome value) :
  match generate_code isspace json_loads get_code_generation_prompt chat
          self creative_mandate method_name with
  | Raises cls msg =>
      (client self = false ∧ cls = "RuntimeError") ∨
      (client self = true ∧ cls = "ValueError" ∧
       (personas self !! "ALFRED" = None ∨ personas self !! "ALFRED" = Some ""))
  | Returns code =>
      client self = true ∧
      ∃ model, personas self !! "ALFRED" = Some model ∧ model ≠ "" ∧
        match chat model (get_code_generation_prompt "ALFRED" method_name)
                creative_mandate with
        | Returns response =>
            code = parse_code_from_response isspace json_loads response
        | Raises _ _ => code = ""
        end
  end.
Proof.
  unfold generate_code. destruct (client self); simpl; [|by left].
  destruct (personas self !! "ALFRED") as [[|c model]|] eqn:Hmodel.
  - right. by split_and!; [..|right].
  - destruct (chat _ _ _) eqn:Hchat; (split; [done|]);
      exists (String c model); by rewrite Hchat.
  - right. by split_and!; [..|left].
Qed.
End CognitiveProofs.

(** X20 on a response whose code has a blank at either end. *)
Lemma parsed_code_is_trimmed_witness :
  Cognitive.parse_code_from_response Cognitive.blank_or_newline Cognitive.sample_loads
    Cognitive.sample_response = "def f(self): pass" ∧
  Cognitive.trimmed Cognitive.blank_or_newline
    (Cognitive.parse_code_from_response Cognitive.blank_or_newline Cognitive.sample_loads
       Cognitive.sample_response).
Proof.
  split; [reflexivity|].
  apply (parsed_code_is_trimmed Cognitive.blank_or_newline Cognitive.sample_loads
           Cognitive.sample_response eq_refl).
  discriminate.
Defined.

(** ** The genesis script *)
Section GenesisProofs.
Import Python Arango Genesis.

Lemma has_true collection key : has collection key = true ↔ is_Some (collection !! key).
Proof. unfold has. apply bool_decide_eq_true. Qed.

Lemma has_false collection key : has collection key = false ↔ collection !! key = None.
Proof. unfold has. rewrite bool_decide_eq_false. symmetry. apply eq_None_not_Some. Qed.

(** What a store looks like after the root objects and, possibly, the
    root link were added to [d]. *)
Lemma roots_added (d d' : database) :
  (UvmObjects d' = UvmObjects d ∨
   UvmObjects d' = <["nil" := empty_object]> (UvmObjects d) ∧
     UvmObjects d !! "nil" = None ∨
   UvmObjects d' = <["system" := empty_object]> (UvmObjects d) ∧
     UvmObjects d !! "system" = None ∨
   UvmObjects d' =
     <["system" := empty_object]> (<["nil" := empty_object]> (UvmObjects d)) ∧
     UvmObjects d !! "nil" = None ∧ UvmObjects d !! "system" = None) →
  (∀ key doc, UvmObjects d !! key = Some doc → UvmObjects d' !! key = Some doc) ∧
  (∀ key doc, UvmObjects d' !! key = Some doc →
     UvmObjects d !! key = Some doc ∨ (key ∈ ["nil"; "system"] ∧ doc = empty_object)).
Proof.
  intros [-> | [[-> Hnil] | [[-> Hsystem] | (-> & Hnil & Hsystem)]]].
  - split; [done | by left].
  - split.
    + intros key doc Hdoc. rewrite lookup_insert_ne; [done|]. intros <-. congruence.
    + intros key doc [[<- <-] | [_ ?]]%lookup_insert_Some; [right | by left].
      split; [|done]. rewrite !elem_of_cons. auto.
  - split.
    + intros key doc Hdoc. rewrite lookup_insert_ne; [done|]. intros <-. congruence.
    + intros key doc [[<- <-] | [_ ?]]%lookup_insert_Some; [right | by left].
      split; [|done]. rewrite !elem_of_cons. auto.
  - split.
    + intros key doc Hdoc. rewrite !lookup_insert_ne; [done|..]; intros <-; congruence.
    + intros key doc [[<- <-] | [_ [[<- <-] | [_ ?]]%lookup_insert_Some]]%lookup_insert_Some;
        [right | right | by left]; (split; [|done]); rewrite !elem_of_cons; auto.
Qed.

Lemma initialize_database_result cursor_truth d :
  let d' := (initialize_database cursor_truth d).2 in
  (∀ key doc, UvmObjects d !! key = Some doc → UvmObjects d' !! key = Some doc) ∧
  (∀ key doc, UvmObjects d' !! key = Some doc →
     UvmObjects d !! key = Some doc ∨ (key ∈ ["nil"; "system"] ∧ doc = empty_object)) ∧
  is_Some (UvmObjects d' !! "nil") ∧ is_Some (UvmObjects d' !! "system") ∧
  (PrototypeLinks d' = PrototypeLinks d ∨
   PrototypeLinks d' = PrototypeLinks d ++ [root_link] ∧
   UvmObjects d !! "system" = None).
Proof.
  unfold initialize_database.
  destruct (has (UvmObjects d) "nil") eqn:Hnil.
  - destruct (has (UvmObjects d) "system") eqn:Hsystem.
    + apply has_true in Hnil, Hsystem. simpl. split_and!; auto.
    + apply has_true in Hnil. apply has_false in Hsystem.
      destruct (cursor_truth _) as [[|]|]; simpl;
        (destruct (roots_added d (insert_object "system" d)) as [Hkeep Hnew];
         [right; right; left; by split|]);
        (split_and!; [exact Hkeep | exact Hnew | by rewrite lookup_insert_ne
                     | rewrite lookup_insert_eq; by eexists | auto]).
  - apply has_false in Hnil.
    destruct (has (UvmObjects (insert_object "nil" d)) "system") eqn:Hsystem.
    + apply has_true in Hsystem. simpl in Hsystem.
      rewrite lookup_insert_ne in Hsystem by done. simpl.
      destruct (roots_added d (insert_object "nil" d)) as [Hkeep Hnew];
        [right; left; by split|].
      split_and!; [exact Hkeep | exact Hnew | rewrite lookup_insert_eq; by eexists
                  | by rewrite lookup_insert_ne | auto].
    + apply has_false in Hsystem. simpl in Hsystem.
      rewrite lookup_insert_ne in Hsystem by done.
      destruct (cursor_truth _) as [[|]|]; simpl;
        (destruct (roots_added d (insert_object "system" (insert_object "nil" d)))
           as [Hkeep Hnew]; [right; right; right; by split_and!|]);
        (split_and!; [exact Hkeep | exact Hnew
                     | rewrite lookup_insert_ne by done; rewrite lookup_insert_eq; by eexists
                     | rewrite lookup_insert_eq; by eexists | auto]).
Qed.

(** X22.  Whatever the store held and however the link test behaves,
    after [initialize_database] the objects [nil] and [system] exist,
    every document that existed is unchanged, every new document is one
    of the two roots and is empty, and the links are the old ones plus,
    at most, [system → nil], added only in a run that creates [system].
    This holds also when the run ends with an exception. *)
Theorem genesis_keeps_what_exists cursor_truth d :
  let d' := (initialize_database cursor_truth d).2 in
  (∀ key doc, UvmObjects d !! key = Some doc → UvmObjects d' !! key = Some doc) ∧
  (∀ key doc, UvmObjects d' !! key = Some doc →
     UvmObjects d !! key = Some doc ∨ (key ∈ ["nil"; "system"] ∧ doc = empty_object)) ∧
  is_Some (UvmObjects d' !! "nil") ∧ is_Some (UvmObjects d' !! "system") ∧
  (PrototypeLinks d' = PrototypeLinks d ∨
   PrototypeLinks d' = PrototypeLinks d ++ [root_link] ∧
   UvmObjects d !! "system" = None).
Proof. apply initialize_database_result. Qed.

(** X23.  Running [initialize_database] again changes nothing and does
    not raise, whatever the first run did; in particular a second run
    never adds the link [system → nil] that a first run left out. *)
Theorem genesis_runs_once cursor_truth cursor_truth' d :
  let d' := (initialize_database cursor_truth d).2 in
  initialize_database cursor_truth' d' = (Returns (), d').
Proof.
  intros d'.
  destruct (initialize_database_result cursor_truth d) as (_ & _ & Hnil & Hsystem & _).
  fold d' in Hnil, Hsystem. apply has_true in Hnil, Hsystem.
  unfold initialize_database at 1. by rewrite Hnil, Hsystem.
Qed.
End GenesisProofs.
